(** * pybloom: a shallow embedding of [pybloom/bloom_filter.py]

    The Bloom filter of the package is a Python class whose instances
    hold the two constructor arguments, four integers and a [bytearray].
    Methods are embedded as computations in a state-and-exception monad
    over a record of those attributes; Python integers are [Z], the
    [bytearray] is a list of [Z] read and written by index, [bytes]
    objects are lists of [Byte.byte], and Python strings are lists of code
    points.  Definitions come first, properties after them. *)

From Stdlib Require Import ZArith List Bool Lia Strings.Byte Ascii PrimFloat.
From Stdlib Require Import DecimalString.
From stdpp Require Import base list strings.

Local Open Scope Z_scope.

(** ** Python values shared by the whole development *)

(** The exception classes the module can raise or let escape. *)
Inductive PyExc : Type :=
| ValueError
| TypeError
| IndexError
| ZeroDivisionError
| OverflowError
| UnicodeEncodeError
| RuntimeError.

(** The outcome of evaluating a Python expression: a value or a raised
    exception. *)
Inductive PyResult (A : Type) : Type :=
| Ok (a : A)
| Raise (e : PyExc).
Arguments Ok {A} a.
Arguments Raise {A} e.

(** A Python [str]: its code points. *)
Definition pystr : Type := list Z.

(** A Python [bytes] object. *)
Definition bytes : Type := list byte.

Definition byte_to_Z (b : byte) : Z := Z.of_N (Byte.to_N b).

Definition byte_of_Z (z : Z) : byte :=
  match Byte.of_N (Z.to_N (z mod 256)) with
  | Some b => b
  | None => x00
  end.

(** [int.from_bytes(bs, byteorder="big", signed=False)]. *)
Definition int_from_bytes_big (bs : bytes) : Z :=
  fold_left (fun acc b => acc * 256 + byte_to_Z b) bs 0.

(** [int.to_bytes(n, "big")] on [n] bytes, used by the digests below. *)
Fixpoint int_to_bytes_big (n : nat) (z : Z) : bytes :=
  match n with
  | O => []
  | S n' => byte_of_Z (Z.shiftr z (8 * Z.of_nat n')) :: int_to_bytes_big n' z
  end.

(** [bytes(reversed(...))] of the above: little-endian. *)
Definition int_to_bytes_little (n : nat) (z : Z) : bytes :=
  rev (int_to_bytes_big n z).

Definition int_from_bytes_little (bs : bytes) : Z :=
  int_from_bytes_big (rev bs).

(** Bytes of an ASCII literal such as [b"$_salt_$"]. *)
Definition bytes_of_literal (s : String.string) : bytes :=
  String.list_byte_of_string s.
Arguments bytes_of_literal s%_string.

(** Code points of an ASCII or Latin-1 literal. *)
Definition pystr_of_literal (s : String.string) : pystr :=
  map byte_to_Z (String.list_byte_of_string s).
Arguments pystr_of_literal s%_string.

(** [str.encode("utf-8")] with the default strict error handling: lone
    surrogates cannot be encoded. *)
Definition utf8_encode_char (c : Z) : PyResult bytes :=
  if c <? 0x80 then Ok [byte_of_Z c]
  else if c <? 0x800 then
    Ok [byte_of_Z (Z.lor 0xC0 (Z.shiftr c 6));
        byte_of_Z (Z.lor 0x80 (Z.land c 0x3F))]
  else if c <? 0x10000 then
    if (0xD800 <=? c) && (c <=? 0xDFFF) then Raise UnicodeEncodeError
    else
      Ok [byte_of_Z (Z.lor 0xE0 (Z.shiftr c 12));
          byte_of_Z (Z.lor 0x80 (Z.land (Z.shiftr c 6) 0x3F));
          byte_of_Z (Z.lor 0x80 (Z.land c 0x3F))]
  else
    Ok [byte_of_Z (Z.lor 0xF0 (Z.shiftr c 18));
        byte_of_Z (Z.lor 0x80 (Z.land (Z.shiftr c 12) 0x3F));
        byte_of_Z (Z.lor 0x80 (Z.land (Z.shiftr c 6) 0x3F));
        byte_of_Z (Z.lor 0x80 (Z.land c 0x3F))].

Fixpoint utf8_encode (s : pystr) : PyResult bytes :=
  match s with
  | [] => Ok []
  | c :: rest =>
      match utf8_encode_char c with
      | Raise e => Raise e
      | Ok bs =>
          match utf8_encode rest with
          | Raise e => Raise e
          | Ok bs' => Ok (bs ++ bs')
          end
      end
  end.

(** ** [hashlib]: the two digests the filter calls

    [hashlib.sha256] and [hashlib.md5] are library code; they are written
    out here (FIPS 180-4 and RFC 1321) so that the filter can be run on
    concrete items.  The filter itself is stated over arbitrary digest
    functions further down. *)
Module Hashlib.

Definition wrap32 (z : Z) : Z := z mod 2 ^ 32.
Definition add32 (x y : Z) : Z := wrap32 (x + y).
Definition not32 (x : Z) : Z := Z.lxor x 0xFFFFFFFF.
Definition rotr32 (n x : Z) : Z :=
  Z.lor (Z.shiftr x n) (wrap32 (Z.shiftl x (32 - n))).
Definition rotl32 (n x : Z) : Z :=
  Z.lor (wrap32 (Z.shiftl x n)) (Z.shiftr x (32 - n)).

(** Consecutive blocks of [k] elements. *)
Fixpoint chunks {A : Type} (fuel k : nat) (l : list A) : list (list A) :=
  match fuel with
  | O => []
  | S fuel' =>
      match l with
      | [] => []
      | _ => firstn k l :: chunks fuel' k (skipn k l)
      end
  end.

(** Message padding: a one bit, zeros up to 56 mod 64, then the length
    in bits on eight bytes. *)
Definition pad (length_bytes : Z -> bytes) (msg : bytes) : bytes :=
  let len := Z.of_nat (length msg) in
  let zeros := Z.to_nat ((55 - len) mod 64) in
  msg ++ [x80] ++ repeat x00 zeros ++ length_bytes (8 * len).

Definition blocks (padded : bytes) : list (list bytes) :=
  map (chunks 16 4) (chunks (length padded) 64 padded).

(** *** SHA-256 *)

(** The round constants are the first 32 bits of the fractional parts of
    the cube roots of the first sixty-four primes, and the initial hash
    value the same of the square roots of the first eight (FIPS 180-4,
    sections 4.2.2 and 5.3.3). *)
Definition first_primes : list Z :=
  [2; 3; 5; 7; 11; 13; 17; 19; 23; 29; 31; 37; 41; 43; 47; 53; 59; 61; 67;
   71; 73; 79; 83; 89; 97; 101; 103; 107; 109; 113; 127; 131; 137; 139; 149;
   151; 157; 163; 167; 173; 179; 181; 191; 193; 197; 199; 211; 223; 227;
   229; 233; 239; 241; 251; 257; 263; 269; 271; 277; 281; 283; 293; 307;
   311].

(** The integer cube root of a number below [2 ^ 108], bit by bit. *)
Definition cube_root (n : Z) : Z :=
  fold_left (fun r bit => let r' := r + 2 ^ bit in
                          if r' * r' * r' <=? n then r' else r)
            (map (fun i => 35 - Z.of_nat i) (seq 0 36)) 0.

Definition sha256_K : list Z :=
  map (fun p => wrap32 (cube_root (p * 2 ^ 96))) first_primes.

Definition sha256_H0 : list Z :=
  map (fun p => wrap32 (Z.sqrt (p * 2 ^ 64))) (firstn 8 first_primes).

Definition sha256_Ch (x y z : Z) : Z := Z.lxor (Z.land x y) (Z.land (not32 x) z).
Definition sha256_Maj (x y z : Z) : Z :=
  Z.lxor (Z.lxor (Z.land x y) (Z.land x z)) (Z.land y z).
Definition sha256_Sigma0 (x : Z) : Z :=
  Z.lxor (Z.lxor (rotr32 2 x) (rotr32 13 x)) (rotr32 22 x).
Definition sha256_Sigma1 (x : Z) : Z :=
  Z.lxor (Z.lxor (rotr32 6 x) (rotr32 11 x)) (rotr32 25 x).
Definition sha256_sigma0 (x : Z) : Z :=
  Z.lxor (Z.lxor (rotr32 7 x) (rotr32 18 x)) (Z.shiftr x 3).
Definition sha256_sigma1 (x : Z) : Z :=
  Z.lxor (Z.lxor (rotr32 17 x) (rotr32 19 x)) (Z.shiftr x 10).

(** The message schedule, built from its sixteen first words. *)
Definition sha256_schedule_step (w : list Z) (t : nat) : list Z :=
  let at_ (i : nat) := nth (t - i) w 0 in
  w ++ [add32 (add32 (sha256_sigma1 (at_ 2%nat)) (at_ 7%nat))
              (add32 (sha256_sigma0 (at_ 15%nat)) (at_ 16%nat))].

Definition sha256_schedule (block : list bytes) : list Z :=
  fold_left sha256_schedule_step (seq 16 48) (map int_from_bytes_big block).

Definition sha256_round (w : list Z) (s : list Z) (t : nat) : list Z :=
  match s with
  | [a; b; c; d; e; f; g; h] =>
      let T1 := add32 (add32 (add32 h (sha256_Sigma1 e)) (sha256_Ch e f g))
                      (add32 (nth t sha256_K 0) (nth t w 0)) in
      let T2 := add32 (sha256_Sigma0 a) (sha256_Maj a b c) in
      [add32 T1 T2; a; b; c; add32 d T1; e; f; g]
  | _ => s
  end.

Definition sha256_compress (h : list Z) (block : list bytes) : list Z :=
  let w := sha256_schedule block in
  zip_with add32 h (fold_left (sha256_round w) (seq 0 64) h).

Definition sha256_digest (msg : bytes) : bytes :=
  concat (map (int_to_bytes_big 4)
              (fold_left sha256_compress (blocks (pad (int_to_bytes_big 8) msg)) sha256_H0)).

(** *** MD5 *)

Definition md5_K : list Z :=
  [0xd76aa478; 0xe8c7b756; 0x242070db; 0xc1bdceee; 0xf57c0faf; 0x4787c62a;
   0xa8304613; 0xfd469501; 0x698098d8; 0x8b44f7af; 0xffff5bb1; 0x895cd7be;
   0x6b901122; 0xfd987193; 0xa679438e; 0x49b40821; 0xf61e2562; 0xc040b340;
   0x265e5a51; 0xe9b6c7aa; 0xd62f105d; 0x02441453; 0xd8a1e681; 0xe7d3fbc8;
   0x21e1cde6; 0xc33707d6; 0xf4d50d87; 0x455a14ed; 0xa9e3e905; 0xfcefa3f8;
   0x676f02d9; 0x8d2a4c8a; 0xfffa3942; 0x8771f681; 0x6d9d6122; 0xfde5380c;
   0xa4beea44; 0x4bdecfa9; 0xf6bb4b60; 0xbebfbc70; 0x289b7ec6; 0xeaa127fa;
   0xd4ef3085; 0x04881d05; 0xd9d4d039; 0xe6db99e5; 0x1fa27cf8; 0xc4ac5665;
   0xf4292244; 0x432aff97; 0xab9423a7; 0xfc93a039; 0x655b59c3; 0x8f0ccc92;
   0xffeff47d; 0x85845dd1; 0x6fa87e4f; 0xfe2ce6e0; 0xa3014314; 0x4e0811a1;
   0xf7537e82; 0xbd3af235; 0x2ad7d2bb; 0xeb86d391].

Definition md5_S : list Z :=
  [7; 12; 17; 22; 7; 12; 17; 22; 7; 12; 17; 22; 7; 12; 17; 22;
   5; 9; 14; 20; 5; 9; 14; 20; 5; 9; 14; 20; 5; 9; 14; 20;
   4; 11; 16; 23; 4; 11; 16; 23; 4; 11; 16; 23; 4; 11; 16; 23;
   6; 10; 15; 21; 6; 10; 15; 21; 6; 10; 15; 21; 6; 10; 15; 21].

Definition md5_A0 : list Z := [0x67452301; 0xefcdab89; 0x98badcfe; 0x10325476].

Definition md5_round (m : list Z) (s : list Z) (i : nat) : list Z :=
  match s with
  | [a; b; c; d] =>
      let zi := Z.of_nat i in
      let '(f, g) :=
        if zi <? 16 then
          (Z.lor (Z.land b c) (Z.land (not32 b) d), zi)
        else if zi <? 32 then
          (Z.lor (Z.land d b) (Z.land (not32 d) c), (5 * zi + 1) mod 16)
        else if zi <? 48 then
          (Z.lxor (Z.lxor b c) d, (3 * zi + 5) mod 16)
        else
          (Z.lxor c (Z.lor b (not32 d)), (7 * zi) mod 16) in
      let f' := add32 (add32 f a) (add32 (nth i md5_K 0) (nth (Z.to_nat g) m 0)) in
      [d; add32 b (rotl32 (nth i md5_S 0) f'); b; c]
  | _ => s
  end.

Definition md5_compress (h : list Z) (block : list bytes) : list Z :=
  let m := map int_from_bytes_little block in
  zip_with add32 h (fold_left (md5_round m) (seq 0 64) h).

Definition md5_digest (msg : bytes) : bytes :=
  concat (map (int_to_bytes_little 4)
              (fold_left md5_compress (blocks (pad (int_to_bytes_little 8) msg)) md5_A0)).


Definition hex (bs : bytes) : Z := int_from_bytes_big bs.

End Hashlib.

(** ** The instance and the method monad *)

(** Argument values of the constructor, as its [isinstance] checks and
    its comparisons tell them apart. *)
Inductive PyVal : Type :=
| VNone
| VBool (b : bool)
| VInt (z : Z)
| VFloat (f : float)
| VStr (s : pystr).

(** The attributes [__init__] sets on [self]. *)
Record BloomFilter : Type := mkBloomFilter {
  _expected_items : PyVal;
  _fp_rate : PyVal;
  _num_bits : Z;
  _num_hashes : Z;
  _num_bytes : Z;
  _bit_array : list Z;
  _items_added_count : Z
}.

(** A method body: it runs on [self], returns or raises, and leaves
    [self] in some state either way (an exception does not roll back
    the writes made before it). *)
Definition Method (A : Type) : Type := BloomFilter -> PyResult A * BloomFilter.

Definition ret {A : Type} (a : A) : Method A := fun self => (Ok a, self).

Definition raise {A : Type} (e : PyExc) : Method A := fun self => (Raise e, self).

Definition bind {A B : Type} (m : Method A) (k : A -> Method B) : Method B :=
  fun self =>
    match m self with
    | (Ok a, self') => k a self'
    | (Raise e, self') => (Raise e, self')
    end.

Notation "'let*' x ':=' m 'in' k" := (bind m (fun x => k))
  (at level 10, x name, m at level 100, k at level 200).

(** An expression that reads nothing of [self]. *)
Definition lift {A : Type} (r : PyResult A) : Method A := fun self => (r, self).

(** [self.<attr>] *)
Definition attr {A : Type} (f : BloomFilter -> A) : Method A :=
  fun self => (Ok (f self), self).

(** [self._bit_array = a] *)
Definition set_bit_array (a : list Z) : Method unit :=
  fun self =>
    (Ok tt,
     {| _expected_items := _expected_items self;
        _fp_rate := _fp_rate self;
        _num_bits := _num_bits self;
        _num_hashes := _num_hashes self;
        _num_bytes := _num_bytes self;
        _bit_array := a;
        _items_added_count := _items_added_count self |}).

(** [self._items_added_count = n] *)
Definition set_items_added_count (n : Z) : Method unit :=
  fun self =>
    (Ok tt,
     {| _expected_items := _expected_items self;
        _fp_rate := _fp_rate self;
        _num_bits := _num_bits self;
        _num_hashes := _num_hashes self;
        _num_bytes := _num_bytes self;
        _bit_array := _bit_array self;
        _items_added_count := n |}).

(** ** [bytearray] *)

(** Index normalisation of a Python sequence: a negative index counts from
    the end, and anything still outside the sequence is an [IndexError]. *)
Definition py_index (len i : Z) : PyResult nat :=
  let j := if i <? 0 then i + len else i in
  if (0 <=? j) && (j <? len) then Ok (Z.to_nat j) else Raise IndexError.

(** [a[i]] *)
Definition bytearray_getitem (a : list Z) (i : Z) : PyResult Z :=
  match py_index (Z.of_nat (length a)) i with
  | Ok j => match a !! j with Some b => Ok b | None => Raise IndexError end
  | Raise e => Raise e
  end.

(** [a[i] = v]: the index is checked first, then the value, which must be
    in [range(256)]. *)
Definition bytearray_setitem (a : list Z) (i v : Z) : PyResult (list Z) :=
  match py_index (Z.of_nat (length a)) i with
  | Ok j => if (0 <=? v) && (v <? 256) then Ok (<[j := v]> a) else Raise ValueError
  | Raise e => Raise e
  end.

(** [bytearray(n)]: [n] zero bytes; a negative count is a [ValueError]. *)
Definition bytearray_new (n : Z) : PyResult (list Z) :=
  if n <? 0 then Raise ValueError else Ok (repeat 0 (Z.to_nat n)).

(** [a % b] on integers. *)
Definition py_mod (a b : Z) : PyResult Z :=
  if b =? 0 then Raise ZeroDivisionError else Ok (a mod b).

(** [range(k)] *)
Definition range (k : Z) : list Z := map Z.of_nat (seq 0 (Z.to_nat k)).

(** The values a generator yields, up to the first exception. *)
Fixpoint collect {A : Type} (l : list (PyResult A)) : PyResult (list A) :=
  match l with
  | [] => Ok []
  | Raise e :: _ => Raise e
  | Ok a :: rest =>
      match collect rest with
      | Ok l' => Ok (a :: l')
      | Raise e => Raise e
      end
  end.

(** [math.ceil(m / 8)] for the sizes the constructor can produce: the
    quotient is exact in floating point for every [m] below [2^53] and for
    every [m] that is itself the integer value of a float, which is all that
    [int(math.ceil(m_float))] returns. *)
Definition ceil_div8 (m : Z) : Z := (m + 7) / 8.

(** A value in the exported bit storage. *)
Definition is_byte (b : Z) : Prop := 0 <= b < 256.

#[local] Set Warnings "-register-all".

(** ** Items: a fragment of the Python values

    The filter takes any object.  The fragment below has the built-in
    values whose [repr] is fixed by the language (no floats), and objects
    of user classes, which choose their own [__repr__] and [__str__]. *)
Inductive PyItem : Type :=
| PyNone
| PyBool (b : bool)
| PyInt (z : Z)
| PyStr (s : string)
| PyTuple (items : list PyItem)
| PyObject (oid : Z) (repr_result : PyResult pystr)
    (str_result : option (PyResult pystr)).

(** In [PyStr s] each character of [s] is the code point of its number
    (Latin-1).  In [PyObject oid r s], [oid] is the identity of the
    object, [r] what its [__repr__] does, and [s] what its [__str__] does
    when the class defines one. *)
Definition code_points (s : string) : pystr :=
  map byte_to_Z (String.list_byte_of_string s).

Definition hex_digit (n : Z) : Z := if n <? 10 then 48 + n else 87 + n.

(** [str.isprintable] on the code points 128 to 255: the C1 controls, the
    no-break space and the soft hyphen are not printable. *)
Definition latin1_printable (c : Z) : bool :=
  negb ((c <=? 0xA0) || (c =? 0xAD)).

(** One character of [repr(str)], inside quotes [quote]. *)
Definition repr_char (quote c : Z) : pystr :=
  if (c =? quote) || (c =? 92) then [92; c]
  else if c =? 9 then [92; 116]
  else if c =? 10 then [92; 110]
  else if c =? 13 then [92; 114]
  else if (c <? 32) || (c =? 127) then [92; 120; hex_digit (c / 16); hex_digit (c mod 16)]
  else if c <? 127 then [c]
  else if latin1_printable c then [c]
  else [92; 120; hex_digit (c / 16); hex_digit (c mod 16)].

(** [repr] of a [str]: single quotes, unless the text has a single quote
    and no double quote. *)
Definition str_quote (s : pystr) : Z :=
  if existsb (Z.eqb 39) s && negb (existsb (Z.eqb 34) s) then 34 else 39.

Definition repr_str (s : pystr) : pystr :=
  let quote := str_quote s in
  [quote] ++ concat (map (repr_char quote) s) ++ [quote].

(** [repr] of an [int]: its decimal digits. *)
Definition repr_int (z : Z) : pystr :=
  code_points (NilZero.string_of_int (Z.to_int z)).

(** [", ".join(parts)] *)
Fixpoint join_comma (parts : list pystr) : pystr :=
  match parts with
  | [] => []
  | [x] => x
  | x :: rest => x ++ [44; 32] ++ join_comma rest
  end.

(** [repr] of a [tuple] from the [repr] of its elements. *)
Definition repr_tuple (parts : list pystr) : pystr :=
  match parts with
  | [x] => [40] ++ x ++ [44; 41]
  | _ => [40] ++ join_comma parts ++ [41]
  end.

(** [repr(item)] *)
Fixpoint py_repr (item : PyItem) : PyResult pystr :=
  match item with
  | PyNone => Ok (pystr_of_literal "None")
  | PyBool true => Ok (pystr_of_literal "True")
  | PyBool false => Ok (pystr_of_literal "False")
  | PyInt z => Ok (repr_int z)
  | PyStr s => Ok (repr_str (code_points s))
  | PyTuple items =>
      match collect (map py_repr items) with
      | Ok parts => Ok (repr_tuple parts)
      | Raise e => Raise e
      end
  | PyObject _ r _ => r
  end.

(** [str(item)]: the text of a [str]; [__str__] where a class defines it;
    otherwise [object.__str__], which calls [repr]. *)
Definition py_str (item : PyItem) : PyResult pystr :=
  match item with
  | PyStr s => Ok (code_points s)
  | PyObject _ _ (Some s) => s
  | _ => py_repr item
  end.

(** [x == y]: numbers by value ([True == 1]), text by content, tuples
    element by element, objects of user classes by identity. *)
Fixpoint py_eq (x y : PyItem) {struct x} : bool :=
  match x, y with
  | PyNone, PyNone => true
  | PyBool b, PyBool b' => Bool.eqb b b'
  | PyBool b, PyInt z | PyInt z, PyBool b => Z.b2z b =? z
  | PyInt z, PyInt z' => z =? z'
  | PyStr s, PyStr s' => String.eqb s s'
  | PyTuple l, PyTuple l' =>
      (fix go (l l' : list PyItem) {struct l} : bool :=
         match l, l' with
         | [], [] => true
         | a :: r, b :: r' => py_eq a b && go r r'
         | _, _ => false
         end) l l'
  | PyObject o _ _, PyObject o' _ _ => o =? o'
  | _, _ => false
  end.

(** ** What the filter takes from its host *)

(** The items are arbitrary Python objects.  What the filter uses of an
    item is [repr(item)] and, in an error message, [str(item)]; either
    may raise.  [hashlib.sha256(b).digest()] and [hashlib.md5(b).digest()]
    are functions from bytes to bytes. *)
Class Host (Item : Type) : Type := {
  repr : Item -> PyResult pystr;
  str : Item -> PyResult pystr;
  sha256 : bytes -> bytes;
  md5 : bytes -> bytes
}.

(** The two floating-point expressions of [_calculate_optimal_params].
    Their divisors are [math.log(2) ** 2] and a positive [n], so of the
    exceptions floating-point arithmetic and [math.ceil] can raise only
    [ValueError] and [OverflowError] remain. *)
Inductive FloatOutcome : Type :=
| FloatInt (z : Z)
| FloatValueError
| FloatOverflowError.

(** [ceil_m_float n p] is
    [int(math.ceil(-(n * math.log(p)) / (math.log(2) ** 2)))] and
    [ceil_k_float m n] is [int(math.ceil((m / n) * math.log(2)))]. *)
Class FloatMath : Type := {
  ceil_m_float : Z -> PyVal -> FloatOutcome;
  ceil_k_float : Z -> Z -> FloatOutcome
}.

(** ** The filter *)
Section Filter.

Context {Item : Type} {host : Host Item} {floats : FloatMath}.

Definition _HASH_SALT_SUFFIX : bytes := bytes_of_literal "$_salt_$".

(** [repr(item).encode("utf-8")] *)
Definition canonical_bytes (item : Item) : PyResult bytes :=
  match repr item with
  | Ok s => utf8_encode s
  | Raise e => Raise e
  end.

(** The [try] statement of [_get_hashes].  The handler builds its message
    with an f-string that formats [item], which calls [str(item)]: when
    that raises, its exception leaves the handler in place of the
    [TypeError].  (The message also formats the caught exception, which
    does not raise for the exception classes above.) *)
Definition item_bytes (item : Item) : PyResult bytes :=
  match canonical_bytes item with
  | Ok b => Ok b
  | Raise _ =>
      match str item with
      | Ok _ => Raise TypeError
      | Raise e' => Raise e'
      end
  end.

Definition h1_of (item_bytes : bytes) : Z :=
  int_from_bytes_big (take 8 (sha256 item_bytes)).

Definition h2_of (item_bytes : bytes) : Z :=
  int_from_bytes_big (take 8 (md5 (item_bytes ++ _HASH_SALT_SUFFIX))).

(** The double-hashing sequence of an item, as the spec words it. *)
Definition double_hashing (item_bytes : bytes) (k m : Z) : list Z :=
  map (fun i => (h1_of item_bytes + i * h2_of item_bytes) mod m) (range k).

(** [_get_hashes]: the indices the generator yields, in order.  The
    generator body starts running at the first [next()], that is when the
    caller's [for] statement starts, so an exception of the conversion or
    of the first [%] is raised before the caller's loop body has run;
    [_num_hashes] and [_num_bits] do not change while the generator is
    alive, so the list can be computed at once. *)
Definition _get_hashes (item : Item) : Method (list Z) :=
  let* item_bytes := lift (item_bytes item) in
  let h1 := h1_of item_bytes in
  let h2 := h2_of item_bytes in
  let* num_hashes := attr _num_hashes in
  let* num_bits := attr _num_bits in
  lift (collect (map (fun i => py_mod (h1 + i * h2) num_bits) (range num_hashes))).

(** The [for] loop of [add], with [indices_set] as loop state. *)
Fixpoint add_loop (indices : list Z) (indices_set : bool) : Method bool :=
  match indices with
  | [] => ret indices_set
  | index :: rest =>
      let byte_index := index / 8 in
      let bit_offset := index mod 8 in
      let mask := Z.shiftl 1 bit_offset in
      let* a := attr _bit_array in
      let* b := lift (bytearray_getitem a byte_index) in
      let indices_set' := if Z.land b mask =? 0 then true else indices_set in
      let* a' := lift (bytearray_setitem a byte_index (Z.lor b mask)) in
      let* _ := set_bit_array a' in
      add_loop rest indices_set'
  end.

Definition add (item : Item) : Method unit :=
  let* indices := _get_hashes item in
  let* indices_set := add_loop indices false in
  let* num_hashes := attr _num_hashes in
  if indices_set || (num_hashes =? 0) then
    let* count := attr _items_added_count in
    set_items_added_count (count + 1)
  else ret tt.

(** The [for] loop of [might_contain]. *)
Fixpoint might_contain_loop (indices : list Z) : Method bool :=
  match indices with
  | [] => ret true
  | index :: rest =>
      let byte_index := index / 8 in
      let bit_offset := index mod 8 in
      let mask := Z.shiftl 1 bit_offset in
      let* a := attr _bit_array in
      let* b := lift (bytearray_getitem a byte_index) in
      if Z.land b mask =? 0 then ret false else might_contain_loop rest
  end.

Definition might_contain (item : Item) : Method bool :=
  let* num_bits := attr _num_bits in
  if num_bits =? 0 then ret false
  else
    let* indices := _get_hashes item in
    might_contain_loop indices.

Definition __contains__ (item : Item) : Method bool := might_contain item.

Definition __len__ : Method Z := attr _items_added_count.

Definition clear : Method unit :=
  let* num_bytes := attr _num_bytes in
  let* a := lift (bytearray_new num_bytes) in
  let* _ := set_bit_array a in
  set_items_added_count 0.

(** *** Construction *)

(** [isinstance(v, numbers.Integral)]: [bool] is a subclass of [int]. *)
Definition is_Integral (v : PyVal) : bool :=
  match v with
  | VBool _ | VInt _ => true
  | _ => false
  end.

(** [isinstance(v, numbers.Real)] *)
Definition is_Real (v : PyVal) : bool :=
  match v with
  | VBool _ | VInt _ | VFloat _ => true
  | _ => false
  end.

(** The integer an [Integral] value stands for in arithmetic. *)
Definition int_value (v : PyVal) : Z :=
  match v with
  | VBool b => Z.b2z b
  | VInt z => z
  | _ => 0
  end.

(** [0.0 < v < 1.0] on a [Real] value; integers compare with floats by
    value, and a NaN compares false. *)
Definition in_open_unit (v : PyVal) : bool :=
  match v with
  | VFloat f => PrimFloat.ltb 0 f && PrimFloat.ltb f 1
  | VBool _ | VInt _ => (0 <? int_value v) && (int_value v <? 1)
  | _ => false
  end.

Definition _calculate_optimal_params (n : Z) (p : PyVal) : Z * Z :=
  if n <=? 0 then (1, 1)
  else
    match ceil_m_float n p with
    | FloatInt m =>
        match ceil_k_float m n with
        | FloatInt k => (Z.max 1 m, Z.max 1 k)
        | FloatValueError | FloatOverflowError => (1, 1)
        end
    | FloatValueError | FloatOverflowError => (1, 1)
    end.

(** [for item in initial_data: self.add(item)] *)
Fixpoint add_each (items : list Item) : Method unit :=
  match items with
  | [] => ret tt
  | item :: rest => let* _ := add item in add_each rest
  end.

(** [BloomFilter(expected_items, false_positive_rate, initial_data)]: the
    new instance, or the exception that leaves [__init__]. *)
Definition __init__ (expected_items false_positive_rate : PyVal)
    (initial_data : option (list Item)) : PyResult BloomFilter :=
  if negb (is_Integral expected_items) || (int_value expected_items <=? 0)
  then Raise ValueError
  else if negb (is_Real false_positive_rate) || negb (in_open_unit false_positive_rate)
  then Raise ValueError
  else
    let '(m, k) :=
      _calculate_optimal_params (int_value expected_items) false_positive_rate in
    let num_bits := Z.max 1 m in
    let num_hashes := Z.max 1 k in
    let num_bytes := ceil_div8 num_bits in
    match bytearray_new num_bytes with
    | Raise e => Raise e
    | Ok a =>
        let self :=
          {| _expected_items := expected_items;
             _fp_rate := false_positive_rate;
             _num_bits := num_bits;
             _num_hashes := num_hashes;
             _num_bytes := num_bytes;
             _bit_array := a;
             _items_added_count := 0 |} in
        match initial_data with
        | Some ((_ :: _) as items) =>
            match add_each items self with
            | (Ok _, self') => Ok self'
            | (Raise e, _) => Raise e
            end
        | Some [] | None => Ok self
        end
    end.

(** The instance [__init__] builds before it adds the initial data. *)
Definition empty_filter (n p : PyVal) : BloomFilter :=
  let mk := _calculate_optimal_params (int_value n) p in
  let num_bits := Z.max 1 (fst mk) in
  {| _expected_items := n;
     _fp_rate := p;
     _num_bits := num_bits;
     _num_hashes := Z.max 1 (snd mk);
     _num_bytes := ceil_div8 num_bits;
     _bit_array := repeat 0 (Z.to_nat (ceil_div8 num_bits));
     _items_added_count := 0 |}.

(** The two checks of [__init__] in one test. *)
Definition valid_arguments (n p : PyVal) : bool :=
  is_Integral n && (0 <? int_value n) && is_Real p && in_open_unit p.

(** The arguments the spec accepts: [n] a positive integer (a [bool] is an
    integer), [p] a real number strictly between 0.0 and 1.0 (no integer
    is). *)
Definition is_positive_integer (n : PyVal) : Prop :=
  exists z, (n = VInt z \/ n = VBool true /\ z = 1) /\ 0 < z.

Definition is_probability (p : PyVal) : Prop :=
  exists f, p = VFloat f /\ PrimFloat.ltb 0 f = true /\ PrimFloat.ltb f 1 = true.

(** *** The class invariant and the vocabulary of the statements *)

(** What [__init__] establishes and every method keeps. *)
Definition wf (self : BloomFilter) : Prop :=
  1 <= _num_bits self
  /\ 1 <= _num_hashes self
  /\ _num_bytes self = ceil_div8 (_num_bits self)
  /\ Z.of_nat (length (_bit_array self)) = _num_bytes self
  /\ Forall is_byte (_bit_array self)
  /\ 0 <= _items_added_count self.

(** The bit of the storage an index stands for: bit [index % 8] of byte
    [index // 8]; an index outside the storage has no bit. *)
Definition bit_is_set (a : list Z) (index : Z) : bool :=
  match bytearray_getitem a (index / 8) with
  | Ok b => Z.testbit b (index mod 8)
  | Raise _ => false
  end.

(** Every one-bit of [b] is a one-bit of [b']. *)
Definition byte_le (b b' : Z) : Prop :=
  forall n, Z.testbit b n = true -> Z.testbit b' n = true.

(** The same, byte by byte, on two storages of one length. *)
Definition bits_le (a a' : list Z) : Prop := Forall2 byte_le a a'.

(** Two states of one instance: the configuration is the same. *)
Definition same_config (self self' : BloomFilter) : Prop :=
  _expected_items self' = _expected_items self
  /\ _fp_rate self' = _fp_rate self
  /\ _num_bits self' = _num_bits self
  /\ _num_hashes self' = _num_hashes self
  /\ _num_bytes self' = _num_bytes self.

(** The calls a client makes between two observations, [clear] apart. *)
Inductive Call : Type :=
| CallAdd (item : Item)
| CallMightContain (item : Item)
| CallLen.

(** The state a call leaves, whether it returned or raised. *)
Definition after_call (self : BloomFilter) (c : Call) : BloomFilter :=
  match c with
  | CallAdd item => snd (add item self)
  | CallMightContain item => snd (might_contain item self)
  | CallLen => snd (__len__ self)
  end.

Definition after_calls (calls : list Call) (self : BloomFilter) : BloomFilter :=
  fold_left after_call calls self.

(** *** The read-only properties *)

Definition expected_items : Method PyVal := attr _expected_items.
Definition false_positive_rate : Method PyVal := attr _fp_rate.
Definition num_bits : Method Z := attr _num_bits.
Definition num_bytes : Method Z := attr _num_bytes.
Definition num_hashes : Method Z := attr _num_hashes.

(** *** Vocabulary of the further properties *)

(** The calls of a client, [clear] included. *)
Inductive Op : Type :=
| OpCall (c : Call)
| OpClear.

Definition after_op (self : BloomFilter) (o : Op) : BloomFilter :=
  match o with
  | OpCall c => after_call self c
  | OpClear => snd (clear self)
  end.

Definition after_ops (ops : list Op) (self : BloomFilter) : BloomFilter :=
  fold_left after_op ops self.

(** The calls of [add] among some calls. *)
Fixpoint count_adds (calls : list Call) : Z :=
  match calls with
  | [] => 0
  | CallAdd _ :: rest => 1 + count_adds rest
  | _ :: rest => count_adds rest
  end.

(** How many of the indices have their bit set. *)
Fixpoint count_set (a : list Z) (indices : list Z) : Z :=
  match indices with
  | [] => 0
  | index :: rest => (if bit_is_set a index then 1 else 0) + count_set a rest
  end.

(** The bits of the filter that are set, among its [_num_bits] bits. *)
Definition bits_in_use (self : BloomFilter) : Z :=
  count_set (_bit_array self) (range (_num_bits self)).

(** The indices [_get_hashes] yields for an item on [self]; none for an
    item that has no canonical bytes. *)
Definition item_indices (self : BloomFilter) (item : Item) : list Z :=
  match canonical_bytes item with
  | Ok b => double_hashing b (_num_hashes self) (_num_bits self)
  | Raise _ => []
  end.

(** The indices of several items. *)
Definition items_indices (self : BloomFilter) (items : list Item) : list Z :=
  concat (map (item_indices self) items).

(** [repr(item).encode("utf-8")] returns. *)
Definition hashable (item : Item) : Prop :=
  exists b, canonical_bytes item = Ok b.

(** [index in indices] *)
Definition index_in (indices : list Z) (index : Z) : bool :=
  existsb (Z.eqb index) indices.

(** The items some calls pass to [add], in the order of the calls. *)
Fixpoint added_items (calls : list Call) : list Item :=
  match calls with
  | [] => []
  | CallAdd item :: rest => item :: added_items rest
  | _ :: rest => added_items rest
  end.

(** The items of the [initial_data] argument of [__init__]. *)
Definition data_items (initial_data : option (list Item)) : list Item :=
  match initial_data with
  | Some items => items
  | None => []
  end.

End Filter.

(** ** The filter on Python items with the digests of [hashlib] *)

#[global] Instance py_host : Host PyItem :=
  {| repr := py_repr;
     str := py_str;
     sha256 := Hashlib.sha256_digest;
     md5 := Hashlib.md5_digest |}.

(** The float expressions of the sizing at the arguments [(50, 0.1)]. *)
#[global] Instance floats_at_50 : FloatMath :=
  {| ceil_m_float := fun _ _ => FloatInt 240;
     ceil_k_float := fun _ _ => FloatInt 4 |}.

Module Py.

(** [BloomFilter(50, 0.1)], the instance of [test_add_duplicates], as
    CPython builds it: 240 bits in 30 bytes, 4 hashes. *)
Definition filter_50 : BloomFilter :=
  {| _expected_items := VInt 50;
     _fp_rate := VFloat 0x1.999999999999ap-4;  (* 0.1 *)
     _num_bits := 240;
     _num_hashes := 4;
     _num_bytes := 30;
     _bit_array := repeat 0 30;
     _items_added_count := 0 |}.

(** [BloomFilter(n, p)] on Python items, without initial data. *)
Definition construct (n p : PyVal) : PyResult BloomFilter :=
  __init__ (Item := PyItem) n p None.

(** The float [0.1]. *)
Definition tenth : PyVal := VFloat 0x1.999999999999ap-4.

Definition hello : PyItem := PyStr "hello".
Definition world : PyItem := PyStr "world".
Definition goodbye : PyItem := PyStr "goodbye".

(** An object of [class Bad] with [def __repr__(self): raise RuntimeError]
    and no [__str__] of its own. *)
Definition bad : PyItem := PyObject 1 (Raise RuntimeError) None.

(** An object of a class whose [__repr__] returns ["1"]. *)
Definition one_like : PyItem := PyObject 2 (Ok (pystr_of_literal "1")) None.

(** The float expressions of the sizing at an [n] too large for a float,
    such as [10 ** 400]: [n * math.log(p)] raises [OverflowError]. *)
Definition floats_overflow : FloatMath :=
  {| ceil_m_float := fun _ _ => FloatOverflowError;
     ceil_k_float := fun _ _ => FloatOverflowError |}.

End Py.

(** ** Tactics *)

Ltac case_collect :=
  match goal with
  | |- context [collect ?l] => destruct (collect l)
  end.

(** ** Test vectors of the digests *)

(** The first and the last of the derived constants, as FIPS 180-4 lists
    them. *)
Example sha256_constants :
  nth 0 Hashlib.sha256_K 0 = 0x428a2f98
  /\ nth 63 Hashlib.sha256_K 0 = 0xc67178f2
  /\ nth 0 Hashlib.sha256_H0 0 = 0x6a09e667
  /\ nth 7 Hashlib.sha256_H0 0 = 0x5be0cd19.
Proof. vm_compute. repeat split; reflexivity. Qed.

(** The published test vectors of both functions. *)
Example sha256_abc :
  Hashlib.hex (Hashlib.sha256_digest (bytes_of_literal "abc"))
  = 0xba7816bf8f01cfea414140de5dae2223b00361a396177a9cb410ff61f20015ad.
Proof. vm_compute. reflexivity. Qed.

Example sha256_empty :
  Hashlib.hex (Hashlib.sha256_digest [])
  = 0xe3b0c44298fc1c149afbf4c8996fb92427ae41e4649b934ca495991b7852b855.
Proof. vm_compute. reflexivity. Qed.

Example md5_abc :
  Hashlib.hex (Hashlib.md5_digest (bytes_of_literal "abc"))
  = 0x900150983cd24fb0d6963f7d28e17f72.
Proof. vm_compute. reflexivity. Qed.

Example md5_empty :
  Hashlib.hex (Hashlib.md5_digest []) = 0xd41d8cd98f00b204e9800998ecf8427e.
Proof. vm_compute. reflexivity. Qed.

(** Two blocks: a message of one hundred bytes. *)
Example sha256_two_blocks :
  Hashlib.hex (Hashlib.sha256_digest (repeat "a"%byte 100))
  = 0x2816597888e4a0d3a36b82b83316ab32680eb8f00f8cd3b904d681246d285a0e.
Proof. vm_compute. reflexivity. Qed.

Example md5_two_blocks :
  Hashlib.hex (Hashlib.md5_digest (repeat "a"%byte 100))
  = 0x36a92cc94a9e0fa21f625f8bfb007adf.
Proof. vm_compute. reflexivity. Qed.

Example digest_lengths :
  length (Hashlib.sha256_digest (bytes_of_literal "abc")) = 32%nat
  /\ length (Hashlib.md5_digest (bytes_of_literal "abc")) = 16%nat.
Proof. vm_compute. split; reflexivity. Qed.

(** ** Properties *)

Section Properties.

Context {Item : Type} {host : Host Item} {floats : FloatMath}.

Set Default Proof Using "Type".

(** *** Single-bit masks *)

Lemma mask_is_power (k : Z) : 0 <= k -> Z.shiftl 1 k = 2 ^ k.
Proof. intros Hk. rewrite Z.shiftl_1_l. reflexivity. Qed.

(** The test [not (b & mask)] of the source reads bit [k] of [b]. *)
Lemma land_mask_testbit (b k : Z) :
  0 <= k -> (Z.land b (Z.shiftl 1 k) =? 0) = negb (Z.testbit b k).
Proof.
  intros Hk. rewrite mask_is_power by assumption.
  destruct (Z.testbit b k) eqn:Hb; simpl.
  - apply Z.eqb_neq. intros Hz.
    assert (Ht : Z.testbit (Z.land b (2 ^ k)) k = true).
    { rewrite Z.land_spec, Hb, Z.pow2_bits_true by assumption. reflexivity. }
    rewrite Hz, Z.bits_0 in Ht. discriminate.
  - apply Z.eqb_eq. apply Z.bits_inj'. intros n Hn.
    rewrite Z.land_spec, Z.bits_0, Z.pow2_bits_eqb by assumption.
    destruct (Z.eqb_spec k n) as [->|]; [rewrite Hb; reflexivity | apply andb_false_r].
Qed.

Lemma lor_mask_sets (b k : Z) :
  0 <= k -> Z.testbit (Z.lor b (Z.shiftl 1 k)) k = true.
Proof.
  intros Hk. rewrite mask_is_power, Z.lor_spec, Z.pow2_bits_true by assumption.
  apply orb_true_r.
Qed.

Lemma lor_byte_le (b m : Z) : byte_le b (Z.lor b m).
Proof. intros n Hn. rewrite Z.lor_spec, Hn. reflexivity. Qed.

(** OR-ing a bit that is set changes nothing. *)
Lemma lor_mask_id (b k : Z) :
  0 <= k -> Z.testbit b k = true -> Z.lor b (Z.shiftl 1 k) = b.
Proof.
  intros Hk Hb. rewrite mask_is_power by assumption.
  apply Z.bits_inj'. intros n Hn.
  rewrite Z.lor_spec, Z.pow2_bits_eqb by assumption.
  destruct (Z.eqb_spec k n) as [->|]; [rewrite Hb; reflexivity | apply orb_false_r].
Qed.

Lemma is_byte_testbit (b : Z) :
  is_byte b <-> 0 <= b /\ forall n, 8 <= n -> Z.testbit b n = false.
Proof.
  unfold is_byte. split.
  - intros [H0 H1]. split; [assumption|]. intros n Hn.
    destruct (Z.eq_dec b 0) as [->|Hne]; [apply Z.bits_0|].
    apply Z.bits_above_log2; [assumption|].
    assert (Z.log2 b < 8) by (apply Z.log2_lt_pow2; lia). lia.
  - intros [H0 H1]. split; [assumption|].
    destruct (Z.eq_dec b 0) as [->|Hne]; [lia|].
    destruct (Z.lt_ge_cases b 256) as [|Hge]; [assumption|exfalso].
    assert (Hl : 8 <= Z.log2 b) by (apply Z.log2_le_pow2; lia).
    specialize (H1 (Z.log2 b) Hl). rewrite Z.bit_log2 in H1 by lia. discriminate.
Qed.

(** A byte with one more bit of the eight is a byte. *)
Lemma lor_mask_is_byte (b k : Z) :
  is_byte b -> 0 <= k < 8 -> is_byte (Z.lor b (Z.shiftl 1 k)).
Proof.
  intros Hb Hk. apply is_byte_testbit in Hb as [H0 Hhi].
  apply is_byte_testbit. split.
  - apply Z.lor_nonneg. split; [assumption|]. apply Z.shiftl_nonneg. lia.
  - intros n Hn. rewrite Z.lor_spec, Hhi, mask_is_power by lia.
    rewrite Z.pow2_bits_false by lia. reflexivity.
Qed.

Lemma index_offset_range (index : Z) : 0 <= index mod 8 < 8.
Proof. apply Z.mod_pos_bound. lia. Qed.

#[local] Instance byte_le_refl : Reflexive byte_le.
Proof. intros b n Hn. exact Hn. Qed.

#[local] Instance byte_le_trans : Transitive byte_le.
Proof. intros a b c Hab Hbc n Hn. apply Hbc, Hab, Hn. Qed.

Lemma bits_le_refl (a : list Z) : bits_le a a.
Proof.
  unfold bits_le. apply Forall2_same_length_lookup. split; [done|].
  intros i x y Hx Hy. rewrite Hx in Hy. injection Hy as <-. reflexivity.
Qed.

Lemma bits_le_trans (a b c : list Z) : bits_le a b -> bits_le b c -> bits_le a c.
Proof.
  unfold bits_le. intros Hab Hbc. eapply Forall2_trans; [|exact Hab|exact Hbc].
  intros x y z Hxy Hyz. etransitivity; eassumption.
Qed.

Lemma bits_le_length (a a' : list Z) : bits_le a a' -> length a = length a'.
Proof. apply Forall2_length. Qed.

(** Writing [b | mask] over [b] only adds bits to the storage. *)
Lemma bits_le_insert_lor (a : list Z) (j : nat) (b m : Z) :
  a !! j = Some b -> bits_le a (<[j := Z.lor b m]> a).
Proof.
  intros Hj. unfold bits_le.
  rewrite <- (list_insert_id a j b Hj) at 1.
  apply Forall2_insert; [apply bits_le_refl | apply lor_byte_le].
Qed.

(** *** The byte array *)

Lemma getitem_lookup (a : list Z) (i b : Z) :
  bytearray_getitem a i = Ok b ->
  exists j, py_index (Z.of_nat (length a)) i = Ok j /\ a !! j = Some b.
Proof.
  unfold bytearray_getitem. intros H.
  destruct (py_index (Z.of_nat (length a)) i) as [j|e]; [|discriminate].
  exists j. split; [reflexivity|].
  destruct (a !! j); [congruence | discriminate].
Qed.

Lemma lookup_getitem (a : list Z) (i b : Z) (j : nat) :
  py_index (Z.of_nat (length a)) i = Ok j -> a !! j = Some b ->
  bytearray_getitem a i = Ok b.
Proof. unfold bytearray_getitem. intros -> ->. reflexivity. Qed.

Lemma getitem_bits_le (a a' : list Z) (i b : Z) :
  bits_le a a' -> bytearray_getitem a i = Ok b ->
  exists b', bytearray_getitem a' i = Ok b' /\ byte_le b b'.
Proof.
  intros Hle Hget. apply getitem_lookup in Hget as (j & Hj & Hb).
  destruct (Forall2_lookup_l _ _ _ _ _ Hle Hb) as (b' & Hb' & Hbb').
  exists b'. split; [|assumption].
  apply lookup_getitem with j; [|assumption].
  rewrite <- (bits_le_length _ _ Hle). assumption.
Qed.

(** A bit that is set in a storage is set in every larger one. *)
Lemma bit_is_set_mono (a a' : list Z) (index : Z) :
  bits_le a a' -> bit_is_set a index = true -> bit_is_set a' index = true.
Proof.
  unfold bit_is_set. intros Hle Hset.
  destruct (bytearray_getitem a (index / 8)) as [b|] eqn:Hget; [|discriminate].
  destruct (getitem_bits_le _ _ _ _ Hle Hget) as (b' & -> & Hbb').
  apply Hbb', Hset.
Qed.

Lemma getitem_is_byte (a : list Z) (i b : Z) :
  Forall is_byte a -> bytearray_getitem a i = Ok b -> is_byte b.
Proof.
  intros Ha Hget. apply getitem_lookup in Hget as (j & _ & Hb).
  eapply Forall_lookup_1; eassumption.
Qed.

(** Inside the storage every index has a byte. *)
Lemma getitem_in_range (a : list Z) (i : Z) :
  0 <= i < Z.of_nat (length a) -> exists b, bytearray_getitem a i = Ok b.
Proof.
  intros Hi. unfold bytearray_getitem, py_index.
  destruct (Z.ltb_spec i 0); [lia|].
  destruct (Z.leb_spec 0 i); [|lia].
  destruct (Z.ltb_spec i (Z.of_nat (length a))); [|lia]. simpl.
  destruct (a !! Z.to_nat i) as [b|] eqn:Hl; [eauto|].
  apply lookup_ge_None in Hl. lia.
Qed.

Lemma index_byte_in_range (m index : Z) (a : list Z) :
  Z.of_nat (length a) = ceil_div8 m -> 0 <= index < m ->
  0 <= index / 8 < Z.of_nat (length a).
Proof.
  unfold ceil_div8. intros -> Hi. split.
  - apply Z.div_pos; lia.
  - apply Z.div_lt_upper_bound; [lia|].
    pose proof (Z.mul_div_le (m + 7) 8) as H1.
    pose proof (Z.mod_pos_bound (m + 7) 8) as H2.
    pose proof (Z.div_mod (m + 7) 8) as H3. lia.
Qed.

(** *** The index generator *)

Lemma collect_py_mod (f : Z -> Z) (m : Z) (l : list Z) :
  m <> 0 ->
  collect (map (fun i => py_mod (f i) m) l) = Ok (map (fun i => f i mod m) l).
Proof.
  intros Hm. induction l as [|i l IH]; [reflexivity|].
  simpl. unfold py_mod at 1. destruct (Z.eqb_spec m 0); [contradiction|].
  rewrite IH. reflexivity.
Qed.

Lemma _get_hashes_state (item : Item) (self : BloomFilter) :
  snd (_get_hashes item self) = self.
Proof.
  unfold _get_hashes, bind, lift, attr.
  destruct (item_bytes item); [|reflexivity].
  case_collect; reflexivity.
Qed.

Lemma _get_hashes_raise (item : Item) (self : BloomFilter) (e : PyExc) :
  item_bytes item = Raise e -> _get_hashes item self = (Raise e, self).
Proof. unfold _get_hashes, bind, lift. intros ->. reflexivity. Qed.

Lemma _get_hashes_ok (item : Item) (self : BloomFilter) (b : bytes) :
  item_bytes item = Ok b -> _num_bits self <> 0 ->
  _get_hashes item self
  = (Ok (double_hashing b (_num_hashes self) (_num_bits self)), self).
Proof.
  unfold _get_hashes, bind, lift, attr, double_hashing. intros -> Hm. simpl.
  rewrite collect_py_mod by assumption. reflexivity.
Qed.

(** The generator reads only the two sizes of [self]. *)
Lemma _get_hashes_config (item : Item) (self self' : BloomFilter) :
  _num_bits self' = _num_bits self -> _num_hashes self' = _num_hashes self ->
  fst (_get_hashes item self') = fst (_get_hashes item self).
Proof.
  unfold _get_hashes, bind, lift, attr. intros Hm Hk.
  destruct (item_bytes item); [|reflexivity].
  rewrite Hm, Hk. case_collect; reflexivity.
Qed.

Lemma range_length (k : Z) : length (range k) = Z.to_nat k.
Proof. unfold range. rewrite length_map, length_seq. reflexivity. Qed.

Lemma range_lookup (k : Z) (i : nat) :
  (i < Z.to_nat k)%nat -> range k !! i = Some (Z.of_nat i).
Proof.
  intros Hi. unfold range. rewrite list_lookup_fmap.
  rewrite lookup_seq_lt by assumption. reflexivity.
Qed.

(** *** The loop of [add] *)

Lemma setitem_inv (a a' : list Z) (i v : Z) :
  bytearray_setitem a i v = Ok a' ->
  exists j, py_index (Z.of_nat (length a)) i = Ok j /\ a' = <[j := v]> a /\ is_byte v.
Proof.
  unfold bytearray_setitem, is_byte. intros H.
  destruct (py_index (Z.of_nat (length a)) i) as [j|e]; [|discriminate].
  exists j. destruct (Z.leb_spec 0 v), (Z.ltb_spec v 256); simpl in H;
    try discriminate.
  injection H as <-. auto.
Qed.

Lemma setitem_ok (a : list Z) (i b v : Z) :
  bytearray_getitem a i = Ok b -> is_byte v ->
  exists j, a !! j = Some b /\ bytearray_setitem a i v = Ok (<[j := v]> a).
Proof.
  unfold is_byte. intros Hget Hv. apply getitem_lookup in Hget as (j & Hj & Hb).
  exists j. split; [assumption|]. unfold bytearray_setitem. rewrite Hj.
  destruct (Z.leb_spec 0 v), (Z.ltb_spec v 256); simpl; try lia. reflexivity.
Qed.

(** One iteration of the loop, as an equation. *)
Lemma add_loop_cons (index : Z) (rest : list Z) (flag : bool) (self : BloomFilter) :
  add_loop (index :: rest) flag self
  = match bytearray_getitem (_bit_array self) (index / 8) with
    | Raise e => (Raise e, self)
    | Ok b =>
        match bytearray_setitem (_bit_array self) (index / 8)
                (Z.lor b (Z.shiftl 1 (index mod 8))) with
        | Raise e => (Raise e, self)
        | Ok a' =>
            add_loop rest
              (if Z.land b (Z.shiftl 1 (index mod 8)) =? 0 then true else flag)
              (snd (set_bit_array a' self))
        end
    end.
Proof.
  cbn [add_loop]. unfold bind, attr, lift.
  destruct (bytearray_getitem _ _); [|reflexivity].
  destruct (bytearray_setitem _ _ _); reflexivity.
Qed.

Lemma set_bit_array_same (self : BloomFilter) :
  snd (set_bit_array (_bit_array self) self) = self.
Proof. destruct self. reflexivity. Qed.

(** The loop writes no attribute but the storage. *)
Lemma add_loop_config (l : list Z) (flag : bool) (self : BloomFilter) :
  same_config self (snd (add_loop l flag self))
  /\ _items_added_count (snd (add_loop l flag self)) = _items_added_count self.
Proof.
  revert flag self. induction l as [|index rest IH]; intros flag self.
  - unfold same_config. simpl. repeat split.
  - rewrite add_loop_cons.
    destruct (bytearray_getitem _ _); [|unfold same_config; simpl; repeat split].
    destruct (bytearray_setitem _ _ _) as [a'|]; [|unfold same_config; simpl; repeat split].
    destruct (IH (if Z.land a (Z.shiftl 1 (index mod 8)) =? 0 then true else flag)
                 (snd (set_bit_array a' self))) as [Hc Hn].
    unfold same_config in Hc |- *. simpl in Hc, Hn |- *.
    destruct Hc as (H1 & H2 & H3 & H4 & H5). repeat split; assumption.
Qed.

(** The loop only adds bits, also when it stops on an exception. *)
Lemma add_loop_bits_le (l : list Z) (flag : bool) (self : BloomFilter) :
  bits_le (_bit_array self) (_bit_array (snd (add_loop l flag self))).
Proof.
  revert flag self. induction l as [|index rest IH]; intros flag self.
  - apply bits_le_refl.
  - rewrite add_loop_cons.
    destruct (bytearray_getitem _ _) as [b|] eqn:Hget; [|apply bits_le_refl].
    destruct (bytearray_setitem _ _ _) as [a'|] eqn:Hset; [|apply bits_le_refl].
    eapply bits_le_trans; [|apply IH]. simpl.
    apply setitem_inv in Hset as (j & Hj & -> & _).
    apply getitem_lookup in Hget as (j' & Hj' & Hb).
    rewrite Hj in Hj'. injection Hj' as <-.
    apply bits_le_insert_lor. assumption.
Qed.

(** When the loop returns, the bit of every index is set. *)
Lemma add_loop_sets (l : list Z) (flag : bool) (self : BloomFilter) (r : bool) :
  fst (add_loop l flag self) = Ok r ->
  Forall (fun index => bit_is_set (_bit_array (snd (add_loop l flag self))) index = true) l.
Proof.
  revert flag self. induction l as [|index rest IH]; intros flag self Hok.
  - constructor.
  - rewrite add_loop_cons in Hok |- *.
    destruct (bytearray_getitem _ _) as [b|] eqn:Hget; [|discriminate].
    destruct (bytearray_setitem _ _ _) as [a'|] eqn:Hset; [|discriminate].
    constructor; [|apply IH; assumption].
    eapply bit_is_set_mono; [apply add_loop_bits_le|]. simpl.
    apply setitem_inv in Hset as (j & Hj & -> & _).
    apply getitem_lookup in Hget as (j' & Hj' & Hb).
    rewrite Hj in Hj'. injection Hj' as <-.
    unfold bit_is_set.
    rewrite (lookup_getitem _ _ (Z.lor b (Z.shiftl 1 (index mod 8))) j).
    + apply lor_mask_sets, index_offset_range.
    + rewrite length_insert. assumption.
    + apply list_lookup_insert_eq. eapply lookup_lt_Some; eassumption.
Qed.

(** The flag the loop returns: some index had its bit unset on entry. *)
Lemma add_loop_flag (l : list Z) (flag : bool) (self : BloomFilter) (r : bool) :
  fst (add_loop l flag self) = Ok r ->
  r = flag || negb (forallb (bit_is_set (_bit_array self)) l).
Proof.
  revert flag self. induction l as [|index rest IH]; intros flag self Hok.
  - simpl in Hok |- *. injection Hok as <-. rewrite orb_false_r. reflexivity.
  - rewrite add_loop_cons in Hok. cbn [forallb].
    unfold bit_is_set at 1.
    destruct (bytearray_getitem _ _) as [b|] eqn:Hget; [|discriminate].
    destruct (bytearray_setitem _ _ _) as [a'|] eqn:Hset; [|discriminate].
    apply IH in Hok. simpl in Hok.
    rewrite land_mask_testbit in Hok by apply index_offset_range.
    destruct (Z.testbit b (index mod 8)) eqn:Hbit; simpl in Hok |- *.
    + apply setitem_inv in Hset as (j & Hj & -> & _).
      apply getitem_lookup in Hget as (j' & Hj' & Hb).
      rewrite Hj in Hj'. injection Hj' as <-.
      rewrite lor_mask_id in Hok by (auto; apply index_offset_range).
      rewrite list_insert_id in Hok by assumption. exact Hok.
    + rewrite Hok, orb_true_r. reflexivity.
Qed.

(** On a storage that covers the indices the loop returns. *)
Lemma add_loop_returns (l : list Z) (flag : bool) (self : BloomFilter) :
  Forall is_byte (_bit_array self) ->
  Forall (fun index => 0 <= index / 8 < Z.of_nat (length (_bit_array self))) l ->
  exists r, fst (add_loop l flag self) = Ok r
            /\ Forall is_byte (_bit_array (snd (add_loop l flag self))).
Proof.
  revert flag self. induction l as [|index rest IH]; intros flag self Hbytes Hl.
  - exists flag. auto.
  - apply Forall_cons in Hl as [Hidx Hrest]. rewrite add_loop_cons.
    destruct (getitem_in_range _ _ Hidx) as [b Hget]. rewrite Hget.
    assert (Hb : is_byte (Z.lor b (Z.shiftl 1 (index mod 8)))).
    { apply lor_mask_is_byte; [|apply index_offset_range].
      eapply getitem_is_byte; eassumption. }
    destruct (setitem_ok _ _ _ _ Hget Hb) as (j & Hj & ->).
    apply IH; simpl.
    + apply Forall_insert; assumption.
    + rewrite length_insert. assumption.
Qed.

(** Adding indices whose bits are all set changes nothing. *)
Lemma add_loop_noop (l : list Z) (flag : bool) (self : BloomFilter) :
  Forall is_byte (_bit_array self) ->
  Forall (fun index => bit_is_set (_bit_array self) index = true) l ->
  add_loop l flag self = (Ok flag, self).
Proof.
  intros Hbytes. induction l as [|index rest IH]; intros Hl; [reflexivity|].
  apply Forall_cons in Hl as [Hidx Hrest]. rewrite add_loop_cons.
  unfold bit_is_set in Hidx.
  destruct (bytearray_getitem _ _) as [b|] eqn:Hget; [|discriminate].
  rewrite land_mask_testbit, Hidx by apply index_offset_range.
  rewrite lor_mask_id by (auto; apply index_offset_range).
  destruct (setitem_ok _ _ _ b Hget) as (j & Hj & ->);
    [eapply getitem_is_byte; eassumption|].
  rewrite list_insert_id by assumption. rewrite set_bit_array_same.
  apply IH. assumption.
Qed.

(** *** The loop of [might_contain] *)

Lemma might_contain_loop_cons (index : Z) (rest : list Z) (self : BloomFilter) :
  might_contain_loop (index :: rest) self
  = match bytearray_getitem (_bit_array self) (index / 8) with
    | Raise e => (Raise e, self)
    | Ok b =>
        if Z.land b (Z.shiftl 1 (index mod 8)) =? 0 then (Ok false, self)
        else might_contain_loop rest self
    end.
Proof.
  cbn [might_contain_loop]. unfold bind, attr, lift.
  destruct (bytearray_getitem _ _) as [b|]; [|reflexivity].
  destruct (Z.land b _ =? 0); reflexivity.
Qed.

Lemma might_contain_loop_state (l : list Z) (self : BloomFilter) :
  snd (might_contain_loop l self) = self.
Proof.
  induction l as [|index rest IH]; [reflexivity|].
  rewrite might_contain_loop_cons.
  destruct (bytearray_getitem _ _) as [b|]; [|reflexivity].
  destruct (Z.land b _ =? 0); [reflexivity|assumption].
Qed.

(** The loop stops at the first index whose bit is unset, whatever comes
    after it. *)
Lemma might_contain_loop_short (before after : list Z) (index b : Z) (self : BloomFilter) :
  Forall (fun i => bit_is_set (_bit_array self) i = true) before ->
  bytearray_getitem (_bit_array self) (index / 8) = Ok b ->
  Z.testbit b (index mod 8) = false ->
  might_contain_loop (before ++ index :: after) self = (Ok false, self).
Proof.
  intros Hbefore Hget Hbit. induction before as [|i before IH]; simpl app.
  - rewrite might_contain_loop_cons, Hget.
    rewrite land_mask_testbit, Hbit by apply index_offset_range. reflexivity.
  - apply Forall_cons in Hbefore as [Hi Hbefore].
    rewrite might_contain_loop_cons. unfold bit_is_set in Hi.
    destruct (bytearray_getitem _ (i / 8)) as [bi|]; [|discriminate].
    rewrite land_mask_testbit, Hi by apply index_offset_range.
    apply IH. assumption.
Qed.

(** On indices inside the storage the loop is the conjunction of the bits. *)
Lemma might_contain_loop_spec (l : list Z) (self : BloomFilter) :
  Forall (fun index => 0 <= index / 8 < Z.of_nat (length (_bit_array self))) l ->
  might_contain_loop l self = (Ok (forallb (bit_is_set (_bit_array self)) l), self).
Proof.
  induction l as [|index rest IH]; intros Hl; [reflexivity|].
  apply Forall_cons in Hl as [Hidx Hrest].
  rewrite might_contain_loop_cons. cbn [forallb]. unfold bit_is_set at 1.
  destruct (getitem_in_range _ _ Hidx) as [b ->].
  rewrite land_mask_testbit by apply index_offset_range.
  destruct (Z.testbit b (index mod 8)); simpl; [apply IH; assumption|reflexivity].
Qed.

Lemma might_contain_loop_all_set (l : list Z) (self : BloomFilter) :
  Forall (fun index => bit_is_set (_bit_array self) index = true) l ->
  might_contain_loop l self = (Ok true, self).
Proof.
  induction l as [|index rest IH]; intros Hl; [reflexivity|].
  apply Forall_cons in Hl as [Hidx Hrest].
  rewrite might_contain_loop_cons. unfold bit_is_set in Hidx.
  destruct (bytearray_getitem _ _) as [b|]; [|discriminate].
  rewrite land_mask_testbit, Hidx by apply index_offset_range.
  apply IH. assumption.
Qed.

(** *** The double-hashing sequence *)

Lemma double_hashing_length (b : bytes) (k m : Z) :
  length (double_hashing b k m) = Z.to_nat k.
Proof. unfold double_hashing. rewrite length_map. apply range_length. Qed.

Lemma double_hashing_lookup (b : bytes) (k m : Z) (i : nat) :
  (i < Z.to_nat k)%nat ->
  double_hashing b k m !! i = Some ((h1_of b + Z.of_nat i * h2_of b) mod m).
Proof.
  intros Hi. unfold double_hashing.
  rewrite list_lookup_fmap, range_lookup by assumption. reflexivity.
Qed.

Lemma double_hashing_range (b : bytes) (k m : Z) :
  0 < m -> Forall (fun index => 0 <= index < m) (double_hashing b k m).
Proof.
  intros Hm. unfold double_hashing. apply Forall_map, Forall_forall.
  intros i _. apply Z.mod_pos_bound. assumption.
Qed.

Lemma int_from_bytes_big_app (l1 l2 : bytes) :
  int_from_bytes_big (l1 ++ l2)
  = int_from_bytes_big l1 * 256 ^ Z.of_nat (length l2) + int_from_bytes_big l2.
Proof.
  unfold int_from_bytes_big. revert l1.
  induction l2 as [|x l2 IH] using rev_ind; intros l1.
  - rewrite app_nil_r. simpl. lia.
  - rewrite app_assoc, !fold_left_app. simpl. rewrite <- !fold_left_app, IH.
    rewrite length_app, Nat2Z.inj_add, Z.pow_add_r by lia. simpl length.
    change (256 ^ Z.of_nat 1) with 256.
    replace (fold_left (fun acc b => acc * 256 + byte_to_Z b) l2 0)
      with (int_from_bytes_big l2) by reflexivity.
    unfold int_from_bytes_big. lia.
Qed.

Lemma byte_to_Z_range (b : byte) : 0 <= byte_to_Z b < 256.
Proof.
  unfold byte_to_Z. pose proof (Byte.to_N_bounded b) as H. lia.
Qed.

Lemma int_from_bytes_big_range (l : bytes) :
  0 <= int_from_bytes_big l < 256 ^ Z.of_nat (length l).
Proof.
  induction l as [|x l IH] using rev_ind.
  - simpl. unfold int_from_bytes_big. simpl. lia.
  - rewrite int_from_bytes_big_app, length_app, Nat2Z.inj_add, Z.pow_add_r by lia.
    simpl length. change (256 ^ Z.of_nat 1) with 256.
    assert (Hx : int_from_bytes_big [x] = byte_to_Z x)
      by (unfold int_from_bytes_big; simpl; lia).
    rewrite Hx. pose proof (byte_to_Z_range x). nia.
Qed.

(** Eight bytes read big-endian make an unsigned 64-bit integer. *)
Lemma first_eight_range (digest : bytes) :
  0 <= int_from_bytes_big (take 8 digest) < 2 ^ 64.
Proof.
  pose proof (int_from_bytes_big_range (take 8 digest)) as [H0 H1].
  split; [assumption|]. eapply Z.lt_le_trans; [exact H1|].
  change (2 ^ 64) with (256 ^ 8). apply Z.pow_le_mono_r; [lia|].
  rewrite length_take. lia.
Qed.

(** They are the leading 64 bits of the digest read as one number. *)
Lemma first_eight_leading (digest : bytes) :
  (8 <= length digest)%nat ->
  int_from_bytes_big (take 8 digest)
  = int_from_bytes_big digest / 2 ^ (8 * (Z.of_nat (length digest) - 8)).
Proof.
  intros Hlen. rewrite <- (take_drop 8 digest) at 2.
  rewrite int_from_bytes_big_app, length_drop.
  pose proof (int_from_bytes_big_range (drop 8 digest)) as Hr.
  rewrite length_drop in Hr.
  replace (2 ^ (8 * (Z.of_nat (length digest) - 8)))
    with (256 ^ Z.of_nat (length digest - 8)).
  - rewrite Z.div_add_l by (apply Z.pow_nonzero; lia).
    rewrite (Z.div_small _ _ Hr). lia.
  - change 256 with (2 ^ 8). rewrite <- Z.pow_mul_r by lia. f_equal. lia.
Qed.

(** *** [add] *)

(** [add] in terms of its loop. *)
Lemma add_unfold (item : Item) (self : BloomFilter) :
  add item self
  = match fst (_get_hashes item self) with
    | Raise e => (Raise e, self)
    | Ok indices =>
        match add_loop indices false self with
        | (Raise e, self') => (Raise e, self')
        | (Ok flag, self') =>
            if flag || (_num_hashes self' =? 0)
            then (Ok tt, snd (set_items_added_count (_items_added_count self' + 1) self'))
            else (Ok tt, self')
        end
    end.
Proof.
  unfold add, bind. pose proof (_get_hashes_state item self) as Hs.
  destruct (_get_hashes item self) as [[indices|e] s]; simpl in Hs; subst s;
    [|reflexivity]. cbn [fst].
  destruct (add_loop indices false self) as [[flag|e] self']; [|reflexivity].
  unfold attr. destruct (flag || (_num_hashes self' =? 0)); reflexivity.
Qed.

(** A failed conversion leaves [add] before anything is written. *)
Lemma add_raise (item : Item) (self : BloomFilter) (e : PyExc) :
  item_bytes item = Raise e -> add item self = (Raise e, self).
Proof.
  intros H. rewrite add_unfold, (_get_hashes_raise _ _ _ H). reflexivity.
Qed.

Lemma add_config (item : Item) (self : BloomFilter) :
  same_config self (snd (add item self)).
Proof.
  rewrite add_unfold.
  destruct (fst (_get_hashes item self)) as [indices|e];
    [|unfold same_config; simpl; repeat split].
  destruct (add_loop_config indices false self) as [Hc _].
  destruct (add_loop indices false self) as [[flag|e] self']; [|exact Hc].
  destruct (flag || (_num_hashes self' =? 0)); exact Hc.
Qed.

Lemma add_bits_le (item : Item) (self : BloomFilter) :
  bits_le (_bit_array self) (_bit_array (snd (add item self))).
Proof.
  rewrite add_unfold.
  destruct (fst (_get_hashes item self)) as [indices|e]; [|apply bits_le_refl].
  pose proof (add_loop_bits_le indices false self) as Hle.
  destruct (add_loop indices false self) as [[flag|e] self']; [|exact Hle].
  destruct (flag || (_num_hashes self' =? 0)); exact Hle.
Qed.

(** After an [add] that returned, the bits of the item are set. *)
Lemma add_sets (item : Item) (self : BloomFilter) :
  fst (add item self) = Ok tt ->
  exists indices,
    fst (_get_hashes item self) = Ok indices
    /\ Forall (fun index => bit_is_set (_bit_array (snd (add item self))) index = true)
         indices.
Proof.
  rewrite add_unfold.
  destruct (fst (_get_hashes item self)) as [indices|e]; [|discriminate].
  intros Hok. exists indices. split; [reflexivity|].
  pose proof (add_loop_sets indices false self) as Hset.
  destruct (add_loop indices false self) as [[flag|e] self']; [|discriminate].
  specialize (Hset flag eq_refl).
  destruct (flag || (_num_hashes self' =? 0)); exact Hset.
Qed.

Lemma wf_indices_in_storage (self : BloomFilter) (b : bytes) :
  wf self ->
  Forall (fun index => 0 <= index / 8 < Z.of_nat (length (_bit_array self)))
         (double_hashing b (_num_hashes self) (_num_bits self)).
Proof.
  intros (Hm & _ & Hbytes & Hlen & _).
  eapply Forall_impl; [apply double_hashing_range; lia|].
  intros index Hidx. cbv beta in Hidx |- *.
  apply index_byte_in_range with (_num_bits self); [congruence|assumption].
Qed.

(** On an instance, [add] of an item that converts returns, and the
    counter moves by one exactly when some bit of the item was unset. *)
Lemma add_returns (item : Item) (self : BloomFilter) (b : bytes) :
  wf self -> item_bytes item = Ok b ->
  let indices := double_hashing b (_num_hashes self) (_num_bits self) in
  fst (add item self) = Ok tt
  /\ _items_added_count (snd (add item self))
     = _items_added_count self
       + (if forallb (bit_is_set (_bit_array self)) indices then 0 else 1)
  /\ Forall is_byte (_bit_array (snd (add item self))).
Proof.
  intros Hwf Hb indices. pose proof Hwf as (Hm & Hk & _ & _ & Hbytes & _).
  rewrite add_unfold, _get_hashes_ok with (b := b) by (assumption || lia).
  cbn [fst]. fold indices.
  destruct (add_loop_returns indices false self Hbytes
              (wf_indices_in_storage self b Hwf)) as (r & Hr & Hbytes').
  pose proof (add_loop_flag indices false self r Hr) as Hflag.
  destruct (add_loop_config indices false self) as [(_ & _ & _ & Hk' & _) Hn].
  destruct (add_loop indices false self) as [[flag|e] self']; simpl in Hr;
    [|discriminate].
  injection Hr as ->. simpl in Hflag, Hk', Hn, Hbytes'.
  destruct (Z.eqb_spec (_num_hashes self') 0) as [H0|_]; [lia|].
  rewrite orb_false_r, Hflag.
  destruct (forallb (bit_is_set (_bit_array self)) indices); simpl;
    repeat split; try assumption; lia.
Qed.

(** Every call of [add] keeps the invariant, also one that raises. *)
Lemma add_wf (item : Item) (self : BloomFilter) :
  wf self -> wf (snd (add item self)).
Proof.
  intros Hwf. destruct (item_bytes item) as [b|e] eqn:Hb.
  - destruct (add_returns item self b Hwf Hb) as (_ & Hn & Hbytes).
    destruct (add_config item self) as (_ & _ & Hm & Hk & Hnb).
    pose proof (bits_le_length _ _ (add_bits_le item self)) as Hlen.
    destruct Hwf as (H1 & H2 & H3 & H4 & H5 & H6).
    unfold wf. rewrite Hm, Hk, Hnb, Hn, <- Hlen.
    repeat split; try assumption.
    destruct (forallb _ _); lia.
  - rewrite (add_raise _ _ _ Hb). exact Hwf.
Qed.

(** *** [might_contain] *)

Lemma might_contain_state (item : Item) (self : BloomFilter) :
  snd (might_contain item self) = self.
Proof.
  unfold might_contain, bind, attr, ret. cbn [fst snd].
  destruct (_num_bits self =? 0); [reflexivity|].
  pose proof (_get_hashes_state item self) as Hs.
  destruct (_get_hashes item self) as [[indices|e] s]; simpl in Hs; subst s;
    [|reflexivity].
  apply might_contain_loop_state.
Qed.

Lemma might_contain_unfold (item : Item) (self : BloomFilter) :
  might_contain item self
  = if _num_bits self =? 0 then (Ok false, self)
    else match fst (_get_hashes item self) with
         | Raise e => (Raise e, self)
         | Ok indices => might_contain_loop indices self
         end.
Proof.
  unfold might_contain, bind, attr, ret.
  destruct (_num_bits self =? 0); [reflexivity|].
  pose proof (_get_hashes_state item self) as Hs.
  destruct (_get_hashes item self) as [[indices|e] s]; simpl in Hs; subst s;
    reflexivity.
Qed.

(** *** Sequences of calls *)

Lemma after_call_config (self : BloomFilter) (c : Call) :
  same_config self (after_call self c).
Proof.
  destruct c as [item|item|]; simpl.
  - apply add_config.
  - rewrite might_contain_state. unfold same_config. repeat split.
  - unfold same_config. repeat split.
Qed.

Lemma after_call_bits_le (self : BloomFilter) (c : Call) :
  bits_le (_bit_array self) (_bit_array (after_call self c)).
Proof.
  destruct c as [item|item|]; simpl.
  - apply add_bits_le.
  - rewrite might_contain_state. apply bits_le_refl.
  - apply bits_le_refl.
Qed.

Lemma after_calls_config (calls : list Call) (self : BloomFilter) :
  same_config self (after_calls calls self).
Proof.
  revert self. induction calls as [|c calls IH]; intros self.
  - unfold same_config. repeat split.
  - simpl. specialize (IH (after_call self c)).
    pose proof (after_call_config self c) as Hc.
    unfold same_config in IH, Hc |- *.
    destruct IH as (I1 & I2 & I3 & I4 & I5), Hc as (H1 & H2 & H3 & H4 & H5).
    repeat split; etransitivity; eassumption.
Qed.

Lemma after_calls_bits_le (calls : list Call) (self : BloomFilter) :
  bits_le (_bit_array self) (_bit_array (after_calls calls self)).
Proof.
  revert self. induction calls as [|c calls IH]; intros self.
  - apply bits_le_refl.
  - simpl. eapply bits_le_trans; [apply after_call_bits_le | apply IH].
Qed.

Lemma after_calls_wf (calls : list Call) (self : BloomFilter) :
  wf self -> wf (after_calls calls self).
Proof.
  revert self. induction calls as [|c calls IH]; intros self Hwf; [exact Hwf|].
  simpl. apply IH. destruct c as [item|item|]; simpl.
  - apply add_wf, Hwf.
  - rewrite might_contain_state. exact Hwf.
  - exact Hwf.
Qed.

(** *** Construction and [clear] *)

Lemma _calculate_optimal_params_positive (n : Z) (p : PyVal) :
  1 <= fst (_calculate_optimal_params n p) /\ 1 <= snd (_calculate_optimal_params n p).
Proof.
  unfold _calculate_optimal_params.
  destruct (n <=? 0); [simpl; lia|].
  destruct (ceil_m_float n p) as [m| |]; try (simpl; lia).
  destruct (ceil_k_float m n) as [k| |]; simpl; lia.
Qed.

Lemma ceil_div8_positive (m : Z) : 1 <= m -> 1 <= ceil_div8 m.
Proof.
  intros Hm. unfold ceil_div8. apply Z.div_le_lower_bound; lia.
Qed.

Lemma zero_bytes (n : nat) : Forall is_byte (repeat 0 n).
Proof. induction n; simpl; constructor; [unfold is_byte; lia | assumption]. Qed.

Lemma add_each_wf (items : list Item) (self : BloomFilter) :
  wf self -> wf (snd (add_each items self)).
Proof.
  revert self. induction items as [|item rest IH]; intros self Hwf; [exact Hwf|].
  cbn [add_each]. unfold bind.
  pose proof (add_wf item self Hwf) as Hwf'.
  destruct (add item self) as [[[]|e] self']; simpl in Hwf'; [|exact Hwf'].
  apply IH, Hwf'.
Qed.

Lemma empty_filter_wf (n p : PyVal) : wf (empty_filter n p).
Proof.
  unfold wf, empty_filter. cbn [_num_bits _num_hashes _num_bytes _bit_array
                                _items_added_count].
  pose proof (ceil_div8_positive
                (Z.max 1 (fst (_calculate_optimal_params (int_value n) p)))).
  repeat split; try lia.
  - rewrite repeat_length. lia.
  - apply zero_bytes.
Qed.

Lemma __init___unfold (n p : PyVal) (data : option (list Item)) :
  __init__ n p data
  = if valid_arguments n p then
      match data with
      | Some ((_ :: _) as items) =>
          match add_each items (empty_filter n p) with
          | (Ok _, self') => Ok self'
          | (Raise e, _) => Raise e
          end
      | _ => Ok (empty_filter n p)
      end
    else Raise ValueError.
Proof.
  unfold __init__, valid_arguments.
  destruct (is_Integral n); [|reflexivity].
  destruct (Z.leb_spec (int_value n) 0), (Z.ltb_spec 0 (int_value n));
    try lia; [reflexivity|].
  destruct (is_Real p); [|reflexivity].
  destruct (in_open_unit p); [|reflexivity]. cbn [negb orb andb].
  unfold empty_filter.
  destruct (_calculate_optimal_params (int_value n) p) as [m k] eqn:Hmk.
  cbn [fst snd]. unfold bytearray_new.
  pose proof (ceil_div8_positive (Z.max 1 m)).
  destruct (Z.ltb_spec (ceil_div8 (Z.max 1 m)) 0); [lia|].
  destruct data as [[|item rest]|]; reflexivity.
Qed.

Lemma __init___wf (n p : PyVal) (data : option (list Item)) (self : BloomFilter) :
  __init__ n p data = Ok self -> wf self.
Proof.
  rewrite __init___unfold. destruct (valid_arguments n p); [|discriminate].
  pose proof (empty_filter_wf n p) as Hwf.
  destruct data as [[|item rest]|]; try (intros [= <-]; exact Hwf).
  pose proof (add_each_wf (item :: rest) _ Hwf) as Hwf'.
  destruct (add_each (item :: rest) (empty_filter n p)) as [[[]|e] self'];
    cbv beta iota; [|discriminate].
  intros [= <-]. exact Hwf'.
Qed.

Lemma clear_unfold (self : BloomFilter) :
  clear self
  = if _num_bytes self <? 0 then (Raise ValueError, self)
    else (Ok tt,
          {| _expected_items := _expected_items self;
             _fp_rate := _fp_rate self;
             _num_bits := _num_bits self;
             _num_hashes := _num_hashes self;
             _num_bytes := _num_bytes self;
             _bit_array := repeat 0 (Z.to_nat (_num_bytes self));
             _items_added_count := 0 |}).
Proof.
  unfold clear, bind, attr, lift, bytearray_new.
  destruct (_num_bytes self <? 0); reflexivity.
Qed.

Lemma clear_wf (self : BloomFilter) : wf self -> wf (snd (clear self)).
Proof.
  intros (H1 & H2 & H3 & H4 & H5 & H6). rewrite clear_unfold.
  pose proof (ceil_div8_positive _ H1).
  destruct (Z.ltb_spec (_num_bytes self) 0); [lia|].
  unfold wf. simpl. repeat split; try assumption; try lia.
  - rewrite repeat_length. lia.
  - apply zero_bytes.
Qed.

(** ** The claims *)

(** An item is hashable when [repr(item).encode("utf-8")] returns. *)
Lemma hashable_item_bytes (item : Item) (b : bytes) :
  canonical_bytes item = Ok b -> item_bytes item = Ok b.
Proof. unfold item_bytes. intros ->. reflexivity. Qed.

(** C1.  No false negatives: once [add(item)] has returned, every later
    [might_contain(item)] on the instance returns [True], whatever calls of
    [add] (returning or raising), [might_contain] and [len] were made in
    between, [clear] not being among them.  Instances have at least one
    bit ([__init___wf]); the statement needs no more than a non-zero
    [_num_bits]. *)
Theorem no_false_negatives (self : BloomFilter) (item : Item) (calls : list Call) :
  _num_bits self <> 0 ->
  fst (add item self) = Ok tt ->
  let later := after_calls calls (snd (add item self)) in
  might_contain item later = (Ok true, later).
Proof.
  intros Hm Hadd later.
  destruct (add_sets item self Hadd) as (indices & Hidx & Hset).
  destruct (add_config item self) as (_ & _ & Hm1 & Hk1 & _).
  destruct (after_calls_config calls (snd (add item self))) as (_ & _ & Hm2 & Hk2 & _).
  fold later in Hm2, Hk2.
  rewrite might_contain_unfold.
  destruct (Z.eqb_spec (_num_bits later) 0) as [H0|_]; [congruence|].
  rewrite (_get_hashes_config item self later) by congruence.
  rewrite Hidx. apply might_contain_loop_all_set.
  eapply Forall_impl; [exact Hset|]. intros index Hi. cbv beta in Hi |- *.
  eapply bit_is_set_mono; [|exact Hi]. apply after_calls_bits_le.
Qed.

(** C3.  The index sequence of a hashable item on an instance: it has
    [_num_hashes] elements, all in [[0, _num_bits)]; element [i] is
    [(h1 + i * h2) mod _num_bits], where [h1] and [h2] are the first eight
    bytes, read big-endian, of the SHA-256 digest of the canonical bytes
    and of the MD5 digest of the canonical bytes followed by the salt, so
    both are unsigned 64-bit integers, the leading 64 bits of a digest of
    eight bytes or more; and every state of the same instance yields the
    same sequence. *)
Theorem get_hashes_well_shaped (self : BloomFilter) (item : Item) (b : bytes) :
  wf self ->
  canonical_bytes item = Ok b ->
  let h1 := int_from_bytes_big (take 8 (sha256 b)) in
  let h2 := int_from_bytes_big (take 8 (md5 (b ++ _HASH_SALT_SUFFIX))) in
  exists indices,
    _get_hashes item self = (Ok indices, self)
    /\ Z.of_nat (length indices) = _num_hashes self
    /\ Forall (fun index => 0 <= index < _num_bits self) indices
    /\ (forall i, 0 <= i < _num_hashes self ->
         indices !! Z.to_nat i = Some ((h1 + i * h2) mod _num_bits self))
    /\ 0 <= h1 < 2 ^ 64
    /\ 0 <= h2 < 2 ^ 64
    /\ ((8 <= length (sha256 b))%nat ->
        h1 = int_from_bytes_big (sha256 b)
             / 2 ^ (8 * (Z.of_nat (length (sha256 b)) - 8)))
    /\ (forall self', same_config self self' ->
         _get_hashes item self' = (Ok indices, self')).
Proof.
  intros Hwf Hb h1 h2. pose proof Hwf as (Hm & Hk & _).
  apply hashable_item_bytes in Hb.
  exists (double_hashing b (_num_hashes self) (_num_bits self)).
  split; [apply _get_hashes_ok; [assumption|lia]|].
  split; [rewrite double_hashing_length; lia|].
  split; [apply double_hashing_range; lia|].
  split.
  { intros i Hi. rewrite double_hashing_lookup by lia.
    rewrite Z2Nat.id by lia. reflexivity. }
  split; [apply first_eight_range|].
  split; [apply first_eight_range|].
  split; [apply first_eight_leading|].
  intros self' (_ & _ & Hm' & Hk' & _).
  rewrite <- Hm', <- Hk'. apply _get_hashes_ok; [assumption|lia].
Qed.

(** C6.  [might_contain] is a pure membership test: it never changes
    [self]; with [_num_bits] zero it returns [False] at once; on an
    instance and a hashable item it returns, and returns [True] exactly
    when the bit of every index of the item is set; and it returns
    [False] at the first index whose bit is unset without looking at the
    indices after it. *)
Theorem might_contain_pure_membership (self : BloomFilter) (item : Item) :
  snd (might_contain item self) = self
  /\ (_num_bits self = 0 -> might_contain item self = (Ok false, self))
  /\ (forall b, wf self -> canonical_bytes item = Ok b ->
       exists indices r,
         fst (_get_hashes item self) = Ok indices
         /\ might_contain item self = (Ok r, self)
         /\ (r = true <->
             Forall (fun index => bit_is_set (_bit_array self) index = true) indices))
  /\ (forall before index after byte,
       _num_bits self <> 0 ->
       fst (_get_hashes item self) = Ok (before ++ index :: after) ->
       Forall (fun i => bit_is_set (_bit_array self) i = true) before ->
       bytearray_getitem (_bit_array self) (index / 8) = Ok byte ->
       Z.testbit byte (index mod 8) = false ->
       might_contain item self = (Ok false, self)).
Proof.
  split; [apply might_contain_state|]. split; [|split].
  - intros H0. rewrite might_contain_unfold, H0. reflexivity.
  - intros b Hwf Hb. pose proof Hwf as (Hm & _).
    apply hashable_item_bytes in Hb.
    exists (double_hashing b (_num_hashes self) (_num_bits self)).
    exists (forallb (bit_is_set (_bit_array self))
                    (double_hashing b (_num_hashes self) (_num_bits self))).
    rewrite might_contain_unfold, _get_hashes_ok with (b := b) by (assumption || lia).
    destruct (Z.eqb_spec (_num_bits self) 0); [lia|]. cbn [fst].
    split; [reflexivity|].
    split; [apply might_contain_loop_spec, wf_indices_in_storage, Hwf|].
    rewrite forallb_forall, Forall_forall. split; intros H x Hx; apply H.
    + apply list_elem_of_In, Hx.
    + apply list_elem_of_In, Hx.
  - intros before index after byte Hm Hidx Hbefore Hget Hbit.
    rewrite might_contain_unfold, Hidx.
    destruct (Z.eqb_spec (_num_bits self) 0); [contradiction|].
    eapply might_contain_loop_short; eassumption.
Qed.

Lemma valid_arguments_spec (n p : PyVal) :
  valid_arguments n p = true <-> is_positive_integer n /\ is_probability p.
Proof.
  unfold valid_arguments, is_positive_integer, is_probability. split.
  - intros H. apply andb_prop in H as [H Hu]. apply andb_prop in H as [H Hr].
    apply andb_prop in H as [Hi Hpos]. apply Z.ltb_lt in Hpos. split.
    + destruct n as [|[|]|z| |]; simpl in Hi, Hpos; try discriminate; try lia.
      * exists 1. split; [right; auto | lia].
      * exists z. split; [left; reflexivity | assumption].
    + destruct p as [|b|z|f|]; simpl in Hr, Hu; try discriminate.
      * destruct b; discriminate.
      * apply andb_prop in Hu as [H0 H1].
        apply Z.ltb_lt in H0. apply Z.ltb_lt in H1. lia.
      * apply andb_prop in Hu as [H0 H1]. eauto.
  - intros [(z & [->|[-> ->]] & Hz) (f & -> & H0 & H1)]; simpl.
    + rewrite H0, H1. destruct (Z.ltb_spec 0 z); [reflexivity|lia].
    + rewrite H0, H1. reflexivity.
Qed.


(** C10.  Bits only grow: over any sequence of calls of [add],
    [might_contain] and [len] the storage keeps its length and every bit
    that is set stays set; [clear] replaces the storage by [_num_bytes]
    zero bytes and resets the counter. *)
Theorem bits_only_grow (self : BloomFilter) (calls : list Call) :
  let later := after_calls calls self in
  length (_bit_array later) = length (_bit_array self)
  /\ (forall j b, _bit_array self !! j = Some b ->
       exists b', _bit_array later !! j = Some b'
                  /\ forall n, Z.testbit b n = true -> Z.testbit b' n = true)
  /\ (forall index, bit_is_set (_bit_array self) index = true ->
       bit_is_set (_bit_array later) index = true)
  /\ clear self
     = if _num_bytes self <? 0 then (Raise ValueError, self)
       else (Ok tt,
             {| _expected_items := _expected_items self;
                _fp_rate := _fp_rate self;
                _num_bits := _num_bits self;
                _num_hashes := _num_hashes self;
                _num_bytes := _num_bytes self;
                _bit_array := repeat 0 (Z.to_nat (_num_bytes self));
                _items_added_count := 0 |}).
Proof.
  intros later. pose proof (after_calls_bits_le calls self) as Hle.
  fold later in Hle.
  split; [symmetry; apply bits_le_length, Hle|].
  split; [|split].
  - intros j b Hj. destruct (Forall2_lookup_l _ _ _ _ _ Hle Hj) as (b' & Hb' & Hbb').
    exists b'. split; [assumption|]. exact Hbb'.
  - intros index. apply bit_is_set_mono, Hle.
  - apply clear_unfold.
Qed.

(** What [add] does to the counter, on an instance and a hashable item:
    the call returns, and the counter moves by one when some bit of the
    item was unset before the call and stays when all were set. *)
Lemma add_counts_new_bits (self : BloomFilter) (item : Item) (b : bytes) :
  wf self -> canonical_bytes item = Ok b ->
  fst (add item self) = Ok tt
  /\ _items_added_count (snd (add item self))
     = _items_added_count self
       + (if forallb (bit_is_set (_bit_array self))
                     (double_hashing b (_num_hashes self) (_num_bits self))
          then 0 else 1).
Proof.
  intros Hwf Hb. apply hashable_item_bytes in Hb.
  destruct (add_returns item self b Hwf Hb) as (H1 & H2 & _). auto.
Qed.

(** A second [add] of an item changes nothing, the counter included. *)
Lemma add_again_is_noop (self : BloomFilter) (item : Item) (b : bytes) :
  wf self -> canonical_bytes item = Ok b ->
  let once := snd (add item self) in
  add item once = (Ok tt, once).
Proof.
  intros Hwf Hb once. pose proof (add_wf item self Hwf) as Hwf1. fold once in Hwf1.
  destruct (add_counts_new_bits self item b Hwf Hb) as [Hok _].
  destruct (add_sets item self Hok) as (indices & Hidx & Hset). fold once in Hset.
  destruct (add_config item self) as (_ & _ & Hm1 & Hk1 & _). fold once in Hm1, Hk1.
  rewrite add_unfold, (_get_hashes_config item self once) by congruence.
  rewrite Hidx. pose proof Hwf1 as (_ & Hk & _ & _ & Hbytes & _).
  rewrite add_loop_noop by assumption.
  destruct (Z.eqb_spec (_num_hashes once) 0); [lia|]. reflexivity.
Qed.

(** When the conversion of the item fails, [add] raises and [self] is as
    it was; the exception is [TypeError] when [str(item)] returns, and the
    exception of [str(item)] when it does not.  When the conversion
    succeeds, [add] raises nothing on an instance. *)
Lemma add_all_or_nothing (self : BloomFilter) (item : Item) :
  (forall e, canonical_bytes item = Raise e ->
     add item self
     = (Raise (match str item with Ok _ => TypeError | Raise e' => e' end), self))
  /\ (forall b, wf self -> canonical_bytes item = Ok b -> fst (add item self) = Ok tt).
Proof.
  split.
  - intros e He. apply add_raise. unfold item_bytes. rewrite He.
    destruct (str item); reflexivity.
  - intros b Hwf Hb. apply (add_counts_new_bits self item b Hwf Hb).
Qed.

(** ** Further properties *)

(** *** All the calls, [clear] included *)

Lemma clear_config (self : BloomFilter) : same_config self (snd (clear self)).
Proof.
  rewrite clear_unfold. destruct (_num_bytes self <? 0);
    unfold same_config; simpl; repeat split.
Qed.

Lemma after_op_config (self : BloomFilter) (o : Op) :
  same_config self (after_op self o).
Proof.
  destruct o as [c|]; simpl; [apply after_call_config | apply clear_config].
Qed.

Lemma after_ops_config (ops : list Op) (self : BloomFilter) :
  same_config self (after_ops ops self).
Proof.
  revert self. induction ops as [|o ops IH]; intros self.
  - unfold same_config. repeat split.
  - simpl. specialize (IH (after_op self o)).
    pose proof (after_op_config self o) as Hc.
    unfold same_config in IH, Hc |- *.
    destruct IH as (I1 & I2 & I3 & I4 & I5), Hc as (H1 & H2 & H3 & H4 & H5).
    repeat split; etransitivity; eassumption.
Qed.

Lemma after_op_wf (self : BloomFilter) (o : Op) :
  wf self -> wf (after_op self o).
Proof.
  intros Hwf. destruct o as [[item|item|]|]; simpl.
  - apply add_wf, Hwf.
  - rewrite might_contain_state. exact Hwf.
  - exact Hwf.
  - apply clear_wf, Hwf.
Qed.

Lemma after_ops_wf (ops : list Op) (self : BloomFilter) :
  wf self -> wf (after_ops ops self).
Proof.
  revert self. induction ops as [|o ops IH]; intros self Hwf; [exact Hwf|].
  simpl. apply IH, after_op_wf, Hwf.
Qed.

(** X1.  The class invariant holds at any time: whatever instance
    [__init__] returns, with or without initial data, and whatever calls of
    [add], [might_contain], [len] and [clear] follow, returning or
    raising, the instance has at least one bit and one hash, its storage
    has [ceil(num_bits / 8)] bytes, each in [range(256)], and its counter
    is not negative. *)
Theorem invariant_at_any_time (n p : PyVal) (data : option (list Item))
    (self : BloomFilter) (ops : list Op) :
  __init__ n p data = Ok self ->
  let now := after_ops ops self in
  1 <= _num_bits now
  /\ 1 <= _num_hashes now
  /\ _num_bytes now = ceil_div8 (_num_bits now)
  /\ Z.of_nat (length (_bit_array now)) = _num_bytes now
  /\ Forall is_byte (_bit_array now)
  /\ 0 <= _items_added_count now.
Proof.
  intros Hinit now. apply (after_ops_wf ops self), (__init___wf n p data), Hinit.
Qed.

(** X2.  The five read-only properties never change: after any calls of
    [add], [might_contain], [len] and [clear], on any state,
    [expected_items], [false_positive_rate], [num_bits], [num_bytes] and
    [num_hashes] return what they returned before, and reading them
    changes nothing. *)
Theorem properties_never_change (self : BloomFilter) (ops : list Op) :
  let now := after_ops ops self in
  expected_items now = (fst (expected_items self), now)
  /\ false_positive_rate now = (fst (false_positive_rate self), now)
  /\ num_bits now = (fst (num_bits self), now)
  /\ num_bytes now = (fst (num_bytes self), now)
  /\ num_hashes now = (fst (num_hashes self), now).
Proof.
  intros now. destruct (after_ops_config ops self) as (H1 & H2 & H3 & H4 & H5).
  fold now in H1, H2, H3, H4, H5.
  unfold expected_items, false_positive_rate, num_bits, num_bytes, num_hashes, attr.
  cbn [fst]. rewrite H1, H2, H3, H4, H5. repeat split.
Qed.

(** *** Exceptions on an instance *)

(** X3.  On an instance, [add] and [might_contain] raise nothing of their
    own: an exception that leaves either is the one the conversion of the
    item to bytes raised, and the instance is then unchanged.  In
    particular no [IndexError] or [ZeroDivisionError] comes from the bit
    arithmetic. *)
Theorem only_conversion_errors (self : BloomFilter) (item : Item) (e : PyExc) :
  wf self ->
  (fst (add item self) = Raise e ->
   item_bytes item = Raise e /\ snd (add item self) = self)
  /\ (fst (might_contain item self) = Raise e ->
      item_bytes item = Raise e /\ snd (might_contain item self) = self).
Proof.
  intros Hwf. pose proof Hwf as (Hm & _). split; intros Hraise.
  - destruct (item_bytes item) as [b|e'] eqn:Hb.
    + destruct (add_returns item self b Hwf Hb) as (Hok & _).
      rewrite Hok in Hraise. discriminate.
    + rewrite (add_raise _ _ _ Hb) in Hraise |- *. simpl in Hraise.
      injection Hraise as ->. split; reflexivity.
  - split; [|apply might_contain_state].
    rewrite might_contain_unfold in Hraise.
    destruct (Z.eqb_spec (_num_bits self) 0); [lia|].
    destruct (item_bytes item) as [b|e'] eqn:Hb.
    + rewrite _get_hashes_ok with (b := b) in Hraise by (assumption || lia).
      cbn [fst] in Hraise.
      rewrite might_contain_loop_spec in Hraise
        by apply wf_indices_in_storage, Hwf.
      discriminate.
    + rewrite (_get_hashes_raise _ _ _ Hb) in Hraise. simpl in Hraise.
      congruence.
Qed.

(** *** Answers of [might_contain] *)

(** When the loop answers [True], every bit it looked at is set. *)
Lemma might_contain_loop_true (l : list Z) (self : BloomFilter) :
  fst (might_contain_loop l self) = Ok true ->
  Forall (fun index => bit_is_set (_bit_array self) index = true) l.
Proof.
  induction l as [|index rest IH]; intros Hok; [constructor|].
  rewrite might_contain_loop_cons in Hok.
  destruct (bytearray_getitem _ _) as [b|] eqn:Hget; [|discriminate].
  rewrite land_mask_testbit in Hok by apply index_offset_range.
  destruct (Z.testbit b (index mod 8)) eqn:Hbit; [|discriminate].
  constructor; [|apply IH, Hok].
  unfold bit_is_set. rewrite Hget. exact Hbit.
Qed.

(** X4.  A positive answer is never withdrawn: if [might_contain(item)]
    returns [True] in some state, for an item that was added or not, it
    returns [True] after any further calls of [add], [might_contain] and
    [len]. *)
Theorem positive_answers_are_stable (self : BloomFilter) (item : Item)
    (calls : list Call) :
  fst (might_contain item self) = Ok true ->
  let later := after_calls calls self in
  might_contain item later = (Ok true, later).
Proof.
  intros Hyes later. rewrite might_contain_unfold in Hyes.
  destruct (Z.eqb_spec (_num_bits self) 0) as [|Hm]; [discriminate|].
  destruct (fst (_get_hashes item self)) as [indices|] eqn:Hidx; [|discriminate].
  apply might_contain_loop_true in Hyes.
  destruct (after_calls_config calls self) as (_ & _ & Hm2 & Hk2 & _).
  fold later in Hm2, Hk2. rewrite might_contain_unfold.
  destruct (Z.eqb_spec (_num_bits later) 0) as [H0|_]; [congruence|].
  rewrite (_get_hashes_config item self later) by assumption.
  rewrite Hidx. apply might_contain_loop_all_set.
  eapply Forall_impl; [exact Hyes|]. intros index Hi. cbv beta in Hi |- *.
  eapply bit_is_set_mono; [|exact Hi]. apply after_calls_bits_le.
Qed.

(** *** The counter *)

(** X5.  What [add] counts: on an instance and a hashable item, [add]
    returns, and the counter grows by one when [might_contain(item)]
    answered [False] just before the call and stays as it is when it
    answered [True]. *)
Theorem add_counts_unreported_items (self : BloomFilter) (item : Item) :
  wf self -> hashable item ->
  exists reported,
    might_contain item self = (Ok reported, self)
    /\ fst (add item self) = Ok tt
    /\ _items_added_count (snd (add item self))
       = _items_added_count self + (if reported then 0 else 1).
Proof.
  intros Hwf [b Hb]. pose proof Hwf as (Hm & _).
  apply hashable_item_bytes in Hb.
  destruct (add_returns item self b Hwf Hb) as (Hok & Hn & _).
  exists (forallb (bit_is_set (_bit_array self))
                  (double_hashing b (_num_hashes self) (_num_bits self))).
  split; [|split; assumption].
  rewrite might_contain_unfold, _get_hashes_ok with (b := b) by (assumption || lia).
  destruct (Z.eqb_spec (_num_bits self) 0); [lia|]. cbn [fst].
  apply might_contain_loop_spec, wf_indices_in_storage, Hwf.
Qed.

Lemma add_count_step (item : Item) (self : BloomFilter) :
  _items_added_count self <= _items_added_count (snd (add item self))
                          <= _items_added_count self + 1.
Proof.
  rewrite add_unfold.
  destruct (fst (_get_hashes item self)) as [indices|e]; [|simpl; lia].
  destruct (add_loop_config indices false self) as [_ Hn].
  destruct (add_loop indices false self) as [[flag|e] self']; simpl in Hn;
    [|simpl; lia].
  destruct (flag || (_num_hashes self' =? 0)); simpl; lia.
Qed.

(** X6.  The counter never runs ahead of the calls: over any calls of
    [add], [might_contain] and [len], on any state, it never decreases and
    it grows by at most the number of [add] calls made. *)
Theorem counter_bounded_by_adds (self : BloomFilter) (calls : list Call) :
  _items_added_count self
  <= _items_added_count (after_calls calls self)
  <= _items_added_count self + count_adds calls.
Proof.
  revert self. induction calls as [|c calls IH]; intros self; [simpl; lia|].
  cbn [after_calls fold_left]. fold (after_calls calls (after_call self c)).
  specialize (IH (after_call self c)).
  destruct c as [item|item|]; cbn [after_call count_adds] in IH |- *.
  - pose proof (add_count_step item self). lia.
  - rewrite might_contain_state in IH |- *. lia.
  - simpl in IH |- *. lia.
Qed.

(** *** Which bits [add] sets *)

Lemma index_in_app (l1 l2 : list Z) (i : Z) :
  index_in (l1 ++ l2) i = index_in l1 i || index_in l2 i.
Proof. unfold index_in. apply existsb_app. Qed.

Lemma index_in_In (l : list Z) (i : Z) : index_in l i = true <-> In i l.
Proof.
  unfold index_in. rewrite existsb_exists. split.
  - intros (x & Hx & Heq). apply Z.eqb_eq in Heq. subst. exact Hx.
  - intros Hi. exists i. split; [exact Hi | apply Z.eqb_refl].
Qed.

(** Reading a bit at a position that is not negative. *)
Lemma bit_is_set_lookup (a : list Z) (i : Z) :
  0 <= i ->
  bit_is_set a i
  = match a !! Z.to_nat (i / 8) with
    | Some b => Z.testbit b (i mod 8)
    | None => false
    end.
Proof.
  intros Hi. unfold bit_is_set, bytearray_getitem, py_index.
  assert (H8 : 0 <= i / 8) by (apply Z.div_pos; lia).
  destruct (Z.ltb_spec (i / 8) 0); [lia|].
  destruct (Z.leb_spec 0 (i / 8)); [|lia].
  destruct (Z.ltb_spec (i / 8) (Z.of_nat (length a))); simpl.
  - destruct (a !! Z.to_nat (i / 8)); reflexivity.
  - rewrite (proj2 (lookup_ge_None a (Z.to_nat (i / 8)))) by lia. reflexivity.
Qed.

(** Writing [b | mask] for an index sets the bit of that index and no
    other. *)
Lemma bit_is_set_insert (a : list Z) (index b i : Z) :
  0 <= index -> 0 <= i ->
  a !! Z.to_nat (index / 8) = Some b ->
  bit_is_set (<[Z.to_nat (index / 8) := Z.lor b (Z.shiftl 1 (index mod 8))]> a) i
  = bit_is_set a i || (i =? index).
Proof.
  intros Hindex Hi Hb. rewrite !bit_is_set_lookup by assumption.
  assert (H1 : 0 <= index / 8) by (apply Z.div_pos; lia).
  assert (H2 : 0 <= i / 8) by (apply Z.div_pos; lia).
  pose proof (index_offset_range index) as Ho.
  pose proof (Z.div_mod i 8) as Hdi. pose proof (Z.div_mod index 8) as Hdx.
  destruct (Z.eq_dec (i / 8) (index / 8)) as [Heq|Hne].
  - rewrite Heq, list_lookup_insert_eq, Hb
      by (eapply lookup_lt_Some; eassumption).
    rewrite Z.lor_spec, mask_is_power, Z.pow2_bits_eqb by lia.
    f_equal. destruct (Z.eqb_spec (index mod 8) (i mod 8)),
      (Z.eqb_spec i index); try reflexivity; lia.
  - rewrite list_lookup_insert_ne by lia.
    destruct (Z.eqb_spec i index) as [->|]; [contradiction|].
    rewrite orb_false_r. reflexivity.
Qed.

(** The loop of [add] sets the bits of its indices and no other. *)
Lemma add_loop_bits (l : list Z) (flag : bool) (self : BloomFilter) (i : Z) :
  Forall is_byte (_bit_array self) ->
  Forall (fun index => 0 <= index
                       /\ 0 <= index / 8 < Z.of_nat (length (_bit_array self))) l ->
  0 <= i ->
  bit_is_set (_bit_array (snd (add_loop l flag self))) i
  = bit_is_set (_bit_array self) i || index_in l i.
Proof.
  revert flag self. induction l as [|index rest IH]; intros flag self Hbytes Hl Hi.
  - simpl. rewrite orb_false_r. reflexivity.
  - apply Forall_cons in Hl as [[Hindex Hidx] Hrest]. rewrite add_loop_cons.
    destruct (getitem_in_range _ _ Hidx) as [b Hget]. rewrite Hget.
    assert (Hb : is_byte (Z.lor b (Z.shiftl 1 (index mod 8)))).
    { apply lor_mask_is_byte; [|apply index_offset_range].
      eapply getitem_is_byte; eassumption. }
    destruct (setitem_ok _ _ _ _ Hget Hb) as (j & Hj & Hset). rewrite Hset.
    apply getitem_lookup in Hget as (j' & Hj' & Hb').
    assert (j' = Z.to_nat (index / 8)) as ->.
    { unfold py_index in Hj'. destruct (Z.ltb_spec (index / 8) 0); [lia|].
      destruct (_ && _); [|discriminate]. injection Hj' as <-. reflexivity. }
    apply setitem_inv in Hset as (j2 & Hj2 & Heq & _).
    assert (j2 = Z.to_nat (index / 8)) as ->.
    { unfold py_index in Hj2. destruct (Z.ltb_spec (index / 8) 0); [lia|].
      destruct (_ && _); [|discriminate]. injection Hj2 as <-. reflexivity. }
    rewrite Heq.
    rewrite IH; cbn [snd set_bit_array _bit_array].
    + rewrite bit_is_set_insert by assumption.
      unfold index_in. cbn [existsb]. rewrite orb_assoc. reflexivity.
    + apply Forall_insert; assumption.
    + rewrite length_insert. assumption.
    + assumption.
Qed.

Lemma wf_indices_positions (self : BloomFilter) (b : bytes) :
  wf self ->
  Forall (fun index => 0 <= index
                       /\ 0 <= index / 8 < Z.of_nat (length (_bit_array self)))
         (double_hashing b (_num_hashes self) (_num_bits self)).
Proof.
  intros Hwf. pose proof Hwf as (Hm & _).
  pose proof (wf_indices_in_storage self b Hwf) as H1.
  pose proof (double_hashing_range b (_num_hashes self) (_num_bits self)) as H2.
  rewrite Forall_forall in H1, H2 |- *. intros x Hx.
  split; [apply H2; [lia | exact Hx] | apply H1, Hx].
Qed.

Lemma item_indices_hashable (self : BloomFilter) (item : Item) (b : bytes) :
  canonical_bytes item = Ok b ->
  item_indices self item = double_hashing b (_num_hashes self) (_num_bits self).
Proof. unfold item_indices. intros ->. reflexivity. Qed.

Lemma item_indices_config (self self' : BloomFilter) (item : Item) :
  same_config self self' -> item_indices self' item = item_indices self item.
Proof.
  intros (_ & _ & Hm & Hk & _). unfold item_indices. rewrite Hm, Hk. reflexivity.
Qed.

(** One [add] on an instance; an item without canonical bytes has no
    indices and [add] raises before it writes. *)
Lemma add_bits (self : BloomFilter) (item : Item) (i : Z) :
  wf self -> 0 <= i ->
  bit_is_set (_bit_array (snd (add item self))) i
  = bit_is_set (_bit_array self) i || index_in (item_indices self item) i.
Proof.
  intros Hwf Hi. pose proof Hwf as (Hm & _ & _ & _ & Hbytes & _).
  destruct (canonical_bytes item) as [b|e] eqn:Hb.
  - rewrite (item_indices_hashable self item b Hb).
    apply hashable_item_bytes in Hb.
    rewrite add_unfold, _get_hashes_ok with (b := b) by (assumption || lia).
    cbn [fst].
    pose proof (add_loop_bits _ false self i Hbytes
                  (wf_indices_positions self b Hwf) Hi) as Hbits.
    destruct (add_loop _ false self) as [[flag|e] self']; cbn [snd] in Hbits |- *;
      [|exact Hbits].
    destruct (flag || (_num_hashes self' =? 0)); exact Hbits.
  - destruct (add_all_or_nothing self item) as [Hraise _].
    rewrite (Hraise e Hb). unfold item_indices. rewrite Hb. cbn [snd].
    rewrite orb_false_r. reflexivity.
Qed.

Lemma add_each_cons (item : Item) (rest : list Item) (self : BloomFilter) :
  add_each (item :: rest) self
  = match add item self with
    | (Ok _, self') => add_each rest self'
    | (Raise e, self') => (Raise e, self')
    end.
Proof. reflexivity. Qed.

(** Adding hashable items one after the other returns. *)
Lemma add_each_returns (items : list Item) (self : BloomFilter) :
  wf self -> Forall hashable items -> fst (add_each items self) = Ok tt.
Proof.
  revert self. induction items as [|item rest IH]; intros self Hwf Hall;
    [reflexivity|].
  apply Forall_cons in Hall as [[b Hb] Hrest]. rewrite add_each_cons.
  pose proof (add_wf item self Hwf) as Hwf'.
  destruct (add_returns item self b Hwf (hashable_item_bytes _ _ Hb)) as (Hok & _).
  destruct (add item self) as [[[]|e] self']; [|discriminate].
  apply IH; assumption.
Qed.

Lemma add_each_config (items : list Item) (self : BloomFilter) :
  same_config self (snd (add_each items self)).
Proof.
  revert self. induction items as [|item rest IH]; intros self.
  - unfold same_config. repeat split.
  - rewrite add_each_cons. pose proof (add_config item self) as Hc.
    destruct (add item self) as [[[]|e] self']; cbn [snd] in Hc |- *; [|exact Hc].
    specialize (IH self'). unfold same_config in IH, Hc |- *.
    destruct IH as (I1 & I2 & I3 & I4 & I5), Hc as (H1 & H2 & H3 & H4 & H5).
    repeat split; etransitivity; eassumption.
Qed.

Lemma add_each_bits (items : list Item) (self : BloomFilter) (i : Z) :
  wf self -> Forall hashable items -> 0 <= i ->
  bit_is_set (_bit_array (snd (add_each items self))) i
  = bit_is_set (_bit_array self) i || index_in (items_indices self items) i.
Proof.
  revert self. induction items as [|item rest IH]; intros self Hwf Hall Hi.
  - simpl. rewrite orb_false_r. reflexivity.
  - apply Forall_cons in Hall as [Hitem Hrest]. rewrite add_each_cons.
    pose proof (add_wf item self Hwf) as Hwf'.
    pose proof (add_bits self item i Hwf Hi) as Hbits.
    pose proof (add_config item self) as Hc.
    destruct Hitem as [b Hb].
    destruct (add_returns item self b Hwf (hashable_item_bytes _ _ Hb)) as (Hok & _).
    destruct (add item self) as [[[]|e] self']; [|discriminate].
    cbn [snd] in Hwf', Hbits, Hc.
    rewrite IH, Hbits by assumption.
    unfold items_indices. cbn [map concat]. rewrite index_in_app, orb_assoc.
    f_equal. f_equal. clear -Hc. induction rest as [|x rest IHr]; [reflexivity|].
    cbn [map concat]. rewrite (item_indices_config self self' x Hc), IHr.
    reflexivity.
Qed.

(** *** The storage after any calls *)

Lemma items_indices_cons (self : BloomFilter) (item : Item) (rest : list Item) :
  items_indices self (item :: rest)
  = item_indices self item ++ items_indices self rest.
Proof. reflexivity. Qed.

Lemma items_indices_app (self : BloomFilter) (l1 l2 : list Item) :
  items_indices self (l1 ++ l2) = items_indices self l1 ++ items_indices self l2.
Proof. unfold items_indices. rewrite map_app, concat_app. reflexivity. Qed.

Lemma items_indices_config (self self' : BloomFilter) (items : list Item) :
  same_config self self' -> items_indices self' items = items_indices self items.
Proof.
  intros Hc. induction items as [|x rest IH]; [reflexivity|].
  rewrite !items_indices_cons, (item_indices_config self self' x Hc), IH.
  reflexivity.
Qed.

Lemma In_items_indices (self : BloomFilter) (items : list Item) (i : Z) :
  In i (items_indices self items)
  <-> exists item, In item items /\ In i (item_indices self item).
Proof.
  unfold items_indices. rewrite in_concat. split.
  - intros (l & Hl & Hi). apply in_map_iff in Hl as (item & <- & Hitem). eauto.
  - intros (item & Hitem & Hi). exists (item_indices self item).
    split; [apply in_map; exact Hitem | exact Hi].
Qed.

Lemma after_calls_cons (c : Call) (calls : list Call) (self : BloomFilter) :
  after_calls (c :: calls) self = after_calls calls (after_call self c).
Proof. reflexivity. Qed.

Lemma after_call_wf (self : BloomFilter) (c : Call) :
  wf self -> wf (after_call self c).
Proof.
  intros Hwf. destruct c as [item|item|]; cbn [after_call].
  - apply add_wf, Hwf.
  - rewrite might_contain_state. exact Hwf.
  - exact Hwf.
Qed.

Lemma after_calls_bits (calls : list Call) (self : BloomFilter) (i : Z) :
  wf self -> 0 <= i ->
  bit_is_set (_bit_array (after_calls calls self)) i
  = bit_is_set (_bit_array self) i
    || index_in (items_indices self (added_items calls)) i.
Proof.
  revert self. induction calls as [|c rest IH]; intros self Hwf Hi.
  - simpl. rewrite orb_false_r. reflexivity.
  - rewrite after_calls_cons, IH by (try apply after_call_wf; assumption).
    pose proof (after_call_config self c) as Hc.
    rewrite (items_indices_config self (after_call self c) _ Hc).
    destruct c as [item|item|]; cbn [after_call];
      [change (added_items (CallAdd item :: rest)) with (item :: added_items rest)
      |change (added_items (CallMightContain item :: rest)) with (added_items rest)
      |change (added_items (CallLen :: rest)) with (added_items rest)].
    + rewrite add_bits, items_indices_cons, index_in_app, orb_assoc by assumption.
      reflexivity.
    + rewrite might_contain_state. reflexivity.
    + reflexivity.
Qed.

(** The loop of [__init__] that returned made the calls of [add] one
    after the other. *)
Lemma add_each_after_calls (items : list Item) (self : BloomFilter) :
  fst (add_each items self) = Ok tt ->
  snd (add_each items self) = after_calls (map CallAdd items) self.
Proof.
  revert self. induction items as [|item rest IH]; intros self; [reflexivity|].
  rewrite add_each_cons. cbn [map]. rewrite after_calls_cons. cbn [after_call].
  destruct (add item self) as [[[]|e] self']; cbn [fst snd]; [|discriminate].
  apply IH.
Qed.

Lemma added_items_map_add (items : list Item) :
  added_items (map CallAdd items) = items.
Proof. induction items as [|x rest IH]; [reflexivity|]. simpl. rewrite IH. reflexivity. Qed.

Lemma added_items_app (l1 l2 : list (@Call Item)) :
  added_items (l1 ++ l2) = added_items l1 ++ added_items l2.
Proof.
  induction l1 as [|c rest IH]; [reflexivity|].
  destruct c; simpl; rewrite IH; reflexivity.
Qed.

Lemma after_calls_app (l1 l2 : list Call) (self : BloomFilter) :
  after_calls (l1 ++ l2) self = after_calls l2 (after_calls l1 self).
Proof. unfold after_calls. apply fold_left_app. Qed.

(** No bit is set in a storage of zero bytes. *)
Lemma bit_is_set_zero (n : nat) (i : Z) : bit_is_set (repeat 0 n) i = false.
Proof.
  unfold bit_is_set. destruct (bytearray_getitem _ _) as [b|e] eqn:Hget;
    [|reflexivity].
  apply getitem_lookup in Hget as (j & _ & Hj).
  assert (Hall : Forall (fun z => z = 0) (repeat 0 n))
    by (clear; induction n; simpl; constructor; auto).
  rewrite (Forall_lookup_1 _ _ _ _ Hall Hj). apply Z.bits_0.
Qed.

(** The answer of [might_contain] on an instance, for a hashable item. *)
Lemma might_contain_answer (self : BloomFilter) (item : Item) :
  wf self -> hashable item ->
  might_contain item self
  = (Ok (forallb (bit_is_set (_bit_array self)) (item_indices self item)), self).
Proof.
  intros Hwf [b Hb]. pose proof Hwf as (Hm & _).
  rewrite (item_indices_hashable self item b Hb).
  rewrite might_contain_unfold.
  destruct (Z.eqb_spec (_num_bits self) 0); [lia|].
  rewrite _get_hashes_ok with (b := b)
    by (try apply hashable_item_bytes; assumption || lia).
  cbn [fst]. apply might_contain_loop_spec, wf_indices_in_storage, Hwf.
Qed.

Lemma item_indices_nonneg (self : BloomFilter) (item : Item) :
  wf self -> Forall (fun index => 0 <= index < _num_bits self) (item_indices self item).
Proof.
  intros (Hm & _). unfold item_indices.
  destruct (canonical_bytes item) as [b|e]; [|constructor].
  apply double_hashing_range. lia.
Qed.

Lemma item_indices_nonempty (self : BloomFilter) (item : Item) :
  wf self -> hashable item -> item_indices self item <> [].
Proof.
  intros (_ & Hk & _) [b Hb]. rewrite (item_indices_hashable self item b Hb).
  intros Hnil. apply (f_equal (@length Z)) in Hnil.
  rewrite double_hashing_length in Hnil. simpl in Hnil. lia.
Qed.

(** *** Constructed instances *)

(** What [__init__] returns is the empty instance after the calls of [add]
    on the initial data. *)
Lemma __init___as_calls (n p : PyVal) (data : option (list Item))
    (self : BloomFilter) :
  __init__ n p data = Ok self ->
  self = after_calls (map CallAdd (data_items data)) (empty_filter n p).
Proof.
  rewrite __init___unfold. destruct (valid_arguments n p); [|discriminate].
  destruct data as [[|item rest]|]; try (intros [= <-]; reflexivity).
  cbn [data_items].
  pose proof (add_each_after_calls (item :: rest) (empty_filter n p)) as Hcalls.
  destruct (add_each (item :: rest) (empty_filter n p)) as [[[]|e] self'];
    cbv beta iota; [|discriminate].
  intros [= <-]. apply Hcalls. reflexivity.
Qed.

Lemma __init___config (n p : PyVal) (data : option (list Item))
    (self : BloomFilter) :
  __init__ n p data = Ok self -> same_config (empty_filter n p) self.
Proof.
  intros Hinit. rewrite (__init___as_calls n p data self Hinit).
  apply after_calls_config.
Qed.

(** The bits of a constructed instance that has not been cleared. *)
Lemma constructed_bits (n p : PyVal) (data : option (list Item))
    (self : BloomFilter) (calls : list Call) (i : Z) :
  __init__ n p data = Ok self -> 0 <= i ->
  bit_is_set (_bit_array (after_calls calls self)) i
  = index_in (items_indices self (data_items data ++ added_items calls)) i.
Proof.
  intros Hinit Hi. pose proof (__init___config n p data self Hinit) as Hc.
  rewrite (__init___as_calls n p data self Hinit) at 1.
  rewrite <- after_calls_app.
  rewrite after_calls_bits by (apply empty_filter_wf || assumption).
  rewrite added_items_app, added_items_map_add.
  rewrite (items_indices_config _ _ _ Hc).
  unfold empty_filter at 1. cbn [_bit_array]. rewrite bit_is_set_zero.
  reflexivity.
Qed.

(** X7.  The bits of a filter are the indices of its items: on a
    constructed instance that has not been cleared since, after any calls
    of [add] (returning or raising), [might_contain] and [len], the bit at
    a position is set exactly when the position is one of the indices of
    an item of the initial data or of an item passed to [add]; the bits of
    the last byte beyond [_num_bits] are never set. *)
Theorem set_bits_are_indices_of_items (n p : PyVal) (data : option (list Item))
    (self : BloomFilter) (calls : list Call) (index : Z) :
  __init__ n p data = Ok self ->
  0 <= index ->
  let later := after_calls calls self in
  (bit_is_set (_bit_array later) index = true
   <-> In index (items_indices self (data_items data ++ added_items calls)))
  /\ (_num_bits self <= index -> bit_is_set (_bit_array later) index = false).
Proof.
  intros Hinit Hindex later. unfold later.
  rewrite (constructed_bits n p data self calls index Hinit Hindex).
  split; [apply index_in_In|].
  intros Hout. apply not_true_is_false. rewrite index_in_In, In_items_indices.
  intros (item & _ & Hin).
  pose proof (item_indices_nonneg self item (__init___wf _ _ _ _ Hinit)) as Hrange.
  rewrite List.Forall_forall in Hrange. specialize (Hrange index Hin). lia.
Qed.

(** X8.  When a filter answers [True]: on a constructed instance that has
    not been cleared since, [might_contain] of a hashable item returns, and
    returns [True] exactly when every index of the item is an index of
    some item of the initial data or of some item passed to [add]. *)
Theorem reported_iff_indices_covered (n p : PyVal) (data : option (list Item))
    (self : BloomFilter) (calls : list Call) (item : Item) :
  __init__ n p data = Ok self ->
  hashable item ->
  let later := after_calls calls self in
  exists answer,
    might_contain item later = (Ok answer, later)
    /\ (answer = true
        <-> incl (item_indices self item)
                 (items_indices self (data_items data ++ added_items calls))).
Proof.
  intros Hinit Hitem later.
  pose proof (__init___wf _ _ _ _ Hinit) as Hwf.
  pose proof (after_calls_wf calls self Hwf) as Hwf'. fold later in Hwf'.
  pose proof (after_calls_config calls self) as Hc. fold later in Hc.
  eexists. split; [apply might_contain_answer; assumption|].
  rewrite (item_indices_config self later item Hc).
  pose proof (item_indices_nonneg self item Hwf) as Hrange.
  rewrite List.Forall_forall in Hrange.
  rewrite forallb_forall. unfold incl. split.
  - intros Hall index Hin. apply index_in_In.
    rewrite <- (constructed_bits n p data self calls index Hinit)
      by (apply Hrange in Hin; lia).
    apply Hall, Hin.
  - intros Hall index Hin. unfold later.
    rewrite (constructed_bits n p data self calls index Hinit)
      by (apply Hrange in Hin; lia).
    apply index_in_In, Hall, Hin.
Qed.

(** X9.  A filter constructed without items reports nothing: no bit is
    set, [len] is 0, and [might_contain] and [in] answer [False] for every
    hashable item. *)
Theorem new_filter_reports_nothing (n p : PyVal) (data : option (list Item))
    (self : BloomFilter) (item : Item) :
  __init__ n p data = Ok self ->
  data_items data = [] ->
  hashable item ->
  might_contain item self = (Ok false, self)
  /\ __contains__ item self = (Ok false, self)
  /\ __len__ self = (Ok 0, self)
  /\ _bit_array self = repeat 0 (Z.to_nat (_num_bytes self)).
Proof.
  intros Hinit Hdata Hitem.
  pose proof (__init___as_calls n p data self Hinit) as Hself.
  rewrite Hdata in Hself. cbn [map] in Hself.
  change (after_calls [] (empty_filter n p)) with (empty_filter n p) in Hself.
  subst self. pose proof (empty_filter_wf n p) as Hwf.
  assert (Hno : might_contain item (empty_filter n p) = (Ok false, empty_filter n p)).
  { rewrite might_contain_answer by assumption. f_equal. f_equal.
    pose proof (item_indices_nonempty _ item Hwf Hitem) as Hne.
    destruct (item_indices (empty_filter n p) item) as [|index rest];
      [contradiction|].
    cbn [forallb]. unfold empty_filter at 1. cbn [_bit_array].
    rewrite bit_is_set_zero. reflexivity. }
  repeat split; try exact Hno.
Qed.

(** *** The storage as a set of bits *)

(** Two storages of bytes of one length with the same bits are equal. *)
Lemma storage_eq_of_bits (a a' : list Z) :
  length a = length a' ->
  Forall is_byte a -> Forall is_byte a' ->
  (forall i, 0 <= i -> bit_is_set a i = bit_is_set a' i) ->
  a = a'.
Proof.
  intros Hlen Ha Ha' Hbits. apply list_eq. intros j.
  destruct (a !! j) as [b|] eqn:Hb.
  - destruct (a' !! j) as [b'|] eqn:Hb'.
    + f_equal. apply Z.bits_inj'. intros k Hk.
      pose proof (Forall_lookup_1 _ _ _ _ Ha Hb) as Hbyte.
      pose proof (Forall_lookup_1 _ _ _ _ Ha' Hb') as Hbyte'.
      destruct (Z.lt_ge_cases k 8) as [Hlt|Hge].
      * specialize (Hbits (8 * Z.of_nat j + k)).
        rewrite !bit_is_set_lookup in Hbits by lia.
        replace ((8 * Z.of_nat j + k) / 8) with (Z.of_nat j) in Hbits
          by (apply Z.div_unique with (r := k); lia).
        replace ((8 * Z.of_nat j + k) mod 8) with k in Hbits
          by (apply Z.mod_unique with (q := Z.of_nat j); lia).
        rewrite Nat2Z.id, Hb, Hb' in Hbits. apply Hbits. lia.
      * rewrite (proj2 (proj1 (is_byte_testbit b) Hbyte) k),
          (proj2 (proj1 (is_byte_testbit b') Hbyte') k) by lia. reflexivity.
    + apply lookup_lt_Some in Hb. apply lookup_ge_None in Hb'. lia.
  - destruct (a' !! j) as [b'|] eqn:Hb'; [|reflexivity].
    apply lookup_lt_Some in Hb'. apply lookup_ge_None in Hb. lia.
Qed.

Lemma might_contain_loop_storage (l : list Z) (self self' : BloomFilter) :
  _bit_array self' = _bit_array self ->
  fst (might_contain_loop l self') = fst (might_contain_loop l self).
Proof.
  intros Ha. induction l as [|index rest IH]; [reflexivity|].
  rewrite !might_contain_loop_cons, Ha.
  destruct (bytearray_getitem _ _) as [b|e]; [|reflexivity].
  destruct (Z.land b _ =? 0); [reflexivity | exact IH].
Qed.

(** The answer of [might_contain] depends on the sizes and on the storage
    only. *)
Lemma might_contain_storage (item : Item) (self self' : BloomFilter) :
  same_config self self' ->
  _bit_array self' = _bit_array self ->
  fst (might_contain item self') = fst (might_contain item self).
Proof.
  intros Hc Ha. pose proof Hc as (_ & _ & Hm & Hk & _).
  rewrite !might_contain_unfold, Hm.
  destruct (_num_bits self =? 0); [reflexivity|].
  rewrite (_get_hashes_config item self self') by congruence.
  destruct (fst (_get_hashes item self)) as [indices|e]; [|reflexivity].
  apply might_contain_loop_storage, Ha.
Qed.

(** X10.  The storage depends on the set of items added, not on their
    order or on repetitions: two sequences of calls of [add],
    [might_contain] and [len] on one instance whose calls of [add] pass the
    same items, in any order and any number of times each, leave the same
    bit storage, and every [might_contain] gives the same answer after
    both. *)
Theorem storage_depends_on_items_only (self : BloomFilter)
    (calls calls' : list Call) :
  wf self ->
  (forall item, In item (added_items calls) <-> In item (added_items calls')) ->
  let later := after_calls calls self in
  let later' := after_calls calls' self in
  _bit_array later = _bit_array later'
  /\ forall item, fst (might_contain item later) = fst (might_contain item later').
Proof.
  intros Hwf Hsame later later'.
  pose proof (after_calls_wf calls self Hwf) as (_ & _ & _ & _ & Hbytes & _).
  pose proof (after_calls_wf calls' self Hwf) as (_ & _ & _ & _ & Hbytes' & _).
  fold later in Hbytes. fold later' in Hbytes'.
  pose proof (bits_le_length _ _ (after_calls_bits_le calls self)) as Hlen.
  pose proof (bits_le_length _ _ (after_calls_bits_le calls' self)) as Hlen'.
  fold later in Hlen. fold later' in Hlen'.
  assert (Heq : _bit_array later = _bit_array later').
  { apply storage_eq_of_bits; try assumption; [congruence|].
    intros i Hi. unfold later, later'. rewrite !after_calls_bits by assumption.
    f_equal. apply eq_true_iff_eq. rewrite !index_in_In, !In_items_indices.
    split; intros (item & Hitem & Hin); exists item; split; try assumption;
      apply Hsame; assumption. }
  split; [exact Heq|].
  intros item. apply might_contain_storage; [|exact Heq].
  pose proof (after_calls_config calls self) as (C1 & C2 & C3 & C4 & C5).
  pose proof (after_calls_config calls' self) as (D1 & D2 & D3 & D4 & D5).
  fold later in C1, C2, C3, C4, C5. fold later' in D1, D2, D3, D4, D5.
  unfold same_config. repeat split; congruence.
Qed.

(** X11.  [clear] gives back a new filter: on a constructed instance, after
    any calls of [add], [might_contain], [len] and [clear], [clear]
    returns, and leaves the state [BloomFilter(n, p)] constructs from the
    same arguments without initial data. *)
Theorem clear_restores_new_filter (n p : PyVal) (data : option (list Item))
    (self : BloomFilter) (ops : list Op) :
  __init__ n p data = Ok self ->
  let now := after_ops ops self in
  fst (clear now) = Ok tt
  /\ __init__ n p None = Ok (snd (clear now)).
Proof.
  intros Hinit now.
  pose proof (__init___wf _ _ _ _ Hinit) as Hwf.
  pose proof (after_ops_wf ops self Hwf) as Hwf'. fold now in Hwf'.
  pose proof (__init___config n p data self Hinit) as (C1 & C2 & C3 & C4 & C5).
  pose proof (after_ops_config ops self) as (D1 & D2 & D3 & D4 & D5).
  fold now in D1, D2, D3, D4, D5.
  assert (Hvalid : valid_arguments n p = true).
  { rewrite __init___unfold in Hinit.
    destruct (valid_arguments n p); [reflexivity | discriminate]. }
  rewrite __init___unfold, Hvalid, clear_unfold.
  destruct Hwf' as (H1 & _ & H3 & _).
  pose proof (ceil_div8_positive _ H1).
  destruct (Z.ltb_spec (_num_bytes now) 0); [lia|]. cbn [fst snd].
  split; [reflexivity|]. f_equal. unfold empty_filter.
  unfold empty_filter in C1, C2, C3, C4, C5.
  cbn [_expected_items _fp_rate _num_bits _num_hashes _num_bytes] in C1, C2, C3, C4, C5.
  f_equal; congruence.
Qed.

(** *** Counting the set bits *)

Lemma In_range (m x : Z) : In x (range m) <-> 0 <= x < m.
Proof.
  unfold range. rewrite in_map_iff. split.
  - intros (i & <- & Hi). apply in_seq in Hi. lia.
  - intros Hx. exists (Z.to_nat x). split; [lia|]. apply in_seq. lia.
Qed.

Lemma count_set_bounds (a : list Z) (l : list Z) :
  0 <= count_set a l <= Z.of_nat (length l).
Proof.
  induction l as [|x rest IH]; [simpl; lia|].
  cbn [count_set length]. destruct (bit_is_set a x); lia.
Qed.

Lemma count_set_mono (a a' : list Z) (l : list Z) :
  (forall i, In i l -> bit_is_set a i = true -> bit_is_set a' i = true) ->
  count_set a l <= count_set a' l.
Proof.
  induction l as [|x rest IH]; intros Hle; [simpl; lia|].
  cbn [count_set].
  assert (Hrest : count_set a rest <= count_set a' rest)
    by (apply IH; intros i Hi; apply Hle; right; exact Hi).
  specialize (Hle x (or_introl eq_refl)).
  destruct (bit_is_set a x); [rewrite Hle by reflexivity; lia|].
  destruct (bit_is_set a' x); lia.
Qed.

Lemma count_set_strict (a a' : list Z) (l : list Z) (x : Z) :
  (forall i, In i l -> bit_is_set a i = true -> bit_is_set a' i = true) ->
  In x l -> bit_is_set a x = false -> bit_is_set a' x = true ->
  count_set a l + 1 <= count_set a' l.
Proof.
  induction l as [|y rest IH]; intros Hle Hin Hx Hx'; [contradiction|].
  cbn [count_set].
  assert (Hle' : forall i, In i rest -> bit_is_set a i = true -> bit_is_set a' i = true)
    by (intros i Hi; apply Hle; right; exact Hi).
  destruct Hin as [->|Hin].
  - rewrite Hx, Hx'. pose proof (count_set_mono a a' rest Hle'). lia.
  - specialize (IH Hle' Hin Hx Hx').
    specialize (Hle y (or_introl eq_refl)).
    destruct (bit_is_set a y); [rewrite Hle by reflexivity; lia|].
    destruct (bit_is_set a' y); lia.
Qed.

Lemma count_set_zero (n : nat) (l : list Z) : count_set (repeat 0 n) l = 0.
Proof.
  induction l as [|x rest IH]; [reflexivity|].
  cbn [count_set]. rewrite bit_is_set_zero, IH. reflexivity.
Qed.

Lemma bits_in_use_bounds (self : BloomFilter) :
  0 <= _num_bits self -> 0 <= bits_in_use self <= _num_bits self.
Proof.
  intros Hm. unfold bits_in_use.
  pose proof (count_set_bounds (_bit_array self) (range (_num_bits self))) as H.
  rewrite range_length in H. lia.
Qed.

(** The counter stays below the number of set bits across [add]. *)
Lemma add_counter_below_bits (item : Item) (self : BloomFilter) :
  wf self ->
  _items_added_count self <= bits_in_use self ->
  _items_added_count (snd (add item self)) <= bits_in_use (snd (add item self)).
Proof.
  intros Hwf Hle. destruct (canonical_bytes item) as [b|e] eqn:Hb.
  - destruct (add_counts_new_bits self item b Hwf Hb) as [Hok Hcount].
    destruct (add_config item self) as (_ & _ & Hm & _).
    pose proof (add_bits_le item self) as Hbits.
    destruct (add_sets item self Hok) as (indices & Hidx & Hset).
    pose proof Hwf as (Hpos & _).
    rewrite _get_hashes_ok with (b := b) in Hidx
      by (try apply hashable_item_bytes; assumption || lia).
    cbn [fst] in Hidx. injection Hidx as <-.
    unfold bits_in_use in Hle |- *. rewrite Hcount, Hm.
    assert (Hmono : forall i, In i (range (_num_bits self)) ->
              bit_is_set (_bit_array self) i = true ->
              bit_is_set (_bit_array (snd (add item self))) i = true)
      by (intros i _; apply bit_is_set_mono, Hbits).
    destruct (forallb _ _) eqn:Hall.
    + pose proof (count_set_mono _ _ _ Hmono). lia.
    + assert (Hex : exists x, In x (double_hashing b (_num_hashes self) (_num_bits self))
                              /\ bit_is_set (_bit_array self) x = false).
      { clear -Hall. induction (double_hashing _ _ _) as [|y rest IH];
          [discriminate|]. cbn [forallb] in Hall.
        destruct (bit_is_set (_bit_array self) y) eqn:Hy.
        - destruct (IH Hall) as (x & Hx & Hbit). exists x. split; [right|]; assumption.
        - exists y. split; [left; reflexivity | exact Hy]. }
      destruct Hex as (x & Hx & Hbit).
      pose proof (double_hashing_range b (_num_hashes self) (_num_bits self)) as Hr.
      rewrite List.Forall_forall in Hr, Hset.
      pose proof (count_set_strict _ _ (range (_num_bits self)) x Hmono
                    (proj2 (In_range _ _) (Hr ltac:(lia) x Hx)) Hbit (Hset x Hx)).
      lia.
  - destruct (add_all_or_nothing self item) as [Hraise _].
    rewrite (Hraise e Hb). exact Hle.
Qed.

Lemma after_op_counter_below_bits (self : BloomFilter) (o : Op) :
  wf self ->
  _items_added_count self <= bits_in_use self ->
  _items_added_count (after_op self o) <= bits_in_use (after_op self o).
Proof.
  intros Hwf Hle. destruct o as [[item|item|]|]; cbn [after_op after_call].
  - apply add_counter_below_bits; assumption.
  - rewrite might_contain_state. exact Hle.
  - exact Hle.
  - rewrite clear_unfold. destruct (_num_bytes self <? 0); [exact Hle|].
    unfold bits_in_use. cbn [snd _bit_array _items_added_count].
    rewrite count_set_zero. lia.
Qed.

(** X12.  [len] never exceeds the number of set bits: on a constructed
    instance, after any calls of [add], [might_contain], [len] and [clear],
    the counter is at most the number of bits that are set, which is at
    most [_num_bits]; so [len(bf) <= bf.num_bits] whatever was added. *)
Theorem len_bounded_by_set_bits (n p : PyVal) (data : option (list Item))
    (self : BloomFilter) (ops : list Op) :
  __init__ n p data = Ok self ->
  let now := after_ops ops self in
  0 <= _items_added_count now
  /\ _items_added_count now <= bits_in_use now
  /\ bits_in_use now <= _num_bits now.
Proof.
  intros Hinit now.
  assert (Hstart : wf (empty_filter n p)
                   /\ _items_added_count (empty_filter n p)
                      <= bits_in_use (empty_filter n p)).
  { split; [apply empty_filter_wf|].
    unfold bits_in_use, empty_filter. cbn [_bit_array _items_added_count].
    rewrite count_set_zero. lia. }
  assert (Hops : forall (l : list Op) (s : BloomFilter),
            wf s /\ _items_added_count s <= bits_in_use s ->
            wf (after_ops l s)
            /\ _items_added_count (after_ops l s) <= bits_in_use (after_ops l s)).
  { induction l as [|o l IH]; intros s [Hwf Hle]; [split; assumption|].
    apply (IH (after_op s o)). split.
    - apply after_op_wf, Hwf.
    - apply after_op_counter_below_bits; assumption. }
  assert (Hself : wf self /\ _items_added_count self <= bits_in_use self).
  { rewrite (__init___as_calls n p data self Hinit).
    replace (after_calls (map CallAdd (data_items data)) (empty_filter n p))
      with (after_ops (map OpCall (map CallAdd (data_items data))) (empty_filter n p)).
    - apply Hops, Hstart.
    - generalize (empty_filter n p).
      induction (map CallAdd (data_items data)) as [|c l IH]; intros s;
        [reflexivity|]. apply (IH (after_call s c)). }
  destruct (Hops ops self Hself) as [Hwf Hle]. fold now in Hwf, Hle.
  pose proof Hwf as (Hm & _ & _ & _ & _ & Hcount).
  pose proof (bits_in_use_bounds now ltac:(lia)).
  repeat split; try assumption; lia.
Qed.

(** *** Construction with initial data *)

Lemma add_each_app (l1 l2 : list Item) (self : BloomFilter) :
  fst (add_each l1 self) = Ok tt ->
  add_each (l1 ++ l2) self = add_each l2 (snd (add_each l1 self)).
Proof.
  revert self. induction l1 as [|item rest IH]; intros self; [reflexivity|].
  cbn [app]. rewrite !add_each_cons.
  destruct (add item self) as [[[]|e] self']; cbn [fst snd]; [|discriminate].
  apply IH.
Qed.

Lemma add_each_counter (items : list Item) (self : BloomFilter) :
  _items_added_count self
  <= _items_added_count (snd (add_each items self))
  <= _items_added_count self + Z.of_nat (length items).
Proof.
  revert self. induction items as [|item rest IH]; intros self; [simpl; lia|].
  rewrite add_each_cons. pose proof (add_count_step item self) as Hstep.
  destruct (add item self) as [[[]|e] self']; cbn [snd length] in Hstep |- *;
    [|lia].
  specialize (IH self'). lia.
Qed.



(** *** Items with the same canonical bytes *)

Lemma _get_hashes_bytes (x y : Item) (self : BloomFilter) :
  item_bytes x = item_bytes y -> _get_hashes x self = _get_hashes y self.
Proof. unfold _get_hashes, bind, lift. intros ->. reflexivity. Qed.

(** X15.  Items with the same [repr] are one item to the filter: when the
    canonical bytes of two items are equal, [add] and [might_contain] of
    the one do, in every state, what they do for the other; so after
    [add] of the one on an instance the other is reported. *)
Theorem equal_repr_items_are_one_item (self : BloomFilter) (x y : Item)
    (b : bytes) :
  canonical_bytes x = Ok b ->
  canonical_bytes y = Ok b ->
  add x self = add y self
  /\ might_contain x self = might_contain y self
  /\ (wf self ->
      might_contain y (snd (add x self)) = (Ok true, snd (add x self))).
Proof.
  intros Hx Hy.
  assert (Hbytes : item_bytes x = item_bytes y)
    by (rewrite (hashable_item_bytes x b Hx), (hashable_item_bytes y b Hy);
        reflexivity).
  assert (Hhashes : forall s, _get_hashes x s = _get_hashes y s)
    by (intros s; apply _get_hashes_bytes, Hbytes).
  split; [rewrite !add_unfold, Hhashes; reflexivity|].
  split; [rewrite !might_contain_unfold, Hhashes; reflexivity|].
  intros Hwf. pose proof (add_wf x self Hwf) as (Hm & _).
  destruct (add_counts_new_bits self x b Hwf Hx) as [Hok _].
  destruct (add_sets x self Hok) as (indices & Hidx & Hset).
  destruct (add_config x self) as (_ & _ & Hm' & Hk' & _).
  rewrite might_contain_unfold.
  destruct (Z.eqb_spec (_num_bits (snd (add x self))) 0); [lia|].
  rewrite <- Hhashes, (_get_hashes_config x self _ Hm' Hk'), Hidx.
  apply might_contain_loop_all_set, Hset.
Qed.

(** *** The fallback of the sizing *)

(** X16.  When the float expression for [m] raises (an [n] too large for
    a float, say), the sizing falls back to one bit and one hash: the
    constructor returns an instance with one bit in one byte, and after the
    first [add] of a hashable item that instance reports every hashable
    item. *)
Theorem sizing_fallback_gives_one_bit (n p : PyVal) (x y : Item) :
  is_positive_integer n ->
  is_probability p ->
  (forall m, ceil_m_float (int_value n) p <> FloatInt m) ->
  exists self,
    __init__ n p None = Ok self
    /\ _num_bits self = 1
    /\ _num_hashes self = 1
    /\ _num_bytes self = 1
    /\ (hashable x -> hashable y ->
        might_contain y (snd (add x self)) = (Ok true, snd (add x self))).
Proof.
  intros Hn Hp Hraises.
  pose proof (proj2 (valid_arguments_spec n p) (conj Hn Hp)) as Hvalid.
  exists (empty_filter n p).
  assert (Hmk : _calculate_optimal_params (int_value n) p = (1, 1)).
  { unfold _calculate_optimal_params.
    destruct (int_value n <=? 0); [reflexivity|].
    destruct (ceil_m_float (int_value n) p) as [m| |];
      [exfalso; apply (Hraises m eq_refl) | reflexivity | reflexivity]. }
  split; [rewrite __init___unfold, Hvalid; reflexivity|].
  assert (Hbits : _num_bits (empty_filter n p) = 1)
    by (unfold empty_filter; cbn [_num_bits]; rewrite Hmk; reflexivity).
  assert (Hk : _num_hashes (empty_filter n p) = 1)
    by (unfold empty_filter; cbn [_num_hashes]; rewrite Hmk; reflexivity).
  split; [exact Hbits|]. split; [exact Hk|].
  split; [unfold empty_filter; cbn [_num_bytes]; rewrite Hmk; reflexivity|].
  intros Hx Hy. set (self := empty_filter n p) in *.
  pose proof (empty_filter_wf n p) as Hwf. fold self in Hwf.
  pose proof (add_wf x self Hwf) as Hwf'.
  pose proof (add_config x self) as Hc.
  rewrite might_contain_answer by assumption. f_equal. f_equal.
  apply forallb_forall. intros index Hindex.
  rewrite (item_indices_config self _ y Hc) in Hindex.
  pose proof (item_indices_nonneg self y Hwf) as Hry.
  pose proof (item_indices_nonneg self x Hwf) as Hrx.
  rewrite List.Forall_forall in Hry, Hrx.
  specialize (Hry index Hindex). rewrite Hbits in Hry, Hrx.
  rewrite add_bits by (assumption || lia).
  apply orb_true_iff. right. apply index_in_In.
  pose proof (item_indices_nonempty self x Hwf Hx) as Hne.
  destruct (item_indices self x) as [|first rest]; [contradiction|].
  specialize (Hrx first (or_introl eq_refl)). left. lia.
Qed.

End Properties.

(** ** The claims on concrete instances *)

Ltac prove_wf :=
  unfold wf; repeat split;
  try (vm_compute; first [reflexivity | discriminate]);
  try apply zero_bytes.

(** C1 at [BloomFilter(50, 0.1)]: ["hello"] is added, then other calls are
    made, one of which raises. *)
Lemma no_false_negatives_witness :
  _num_bits Py.filter_50 <> 0
  /\ fst (add Py.hello Py.filter_50) = Ok tt
  /\ let later :=
       after_calls [CallAdd Py.world; CallMightContain Py.goodbye;
                    CallAdd Py.bad; CallLen; CallAdd Py.hello]
                   (snd (add Py.hello Py.filter_50)) in
     might_contain Py.hello later = (Ok true, later).
Proof.
  assert (H1 : _num_bits Py.filter_50 <> 0) by (vm_compute; discriminate).
  assert (H2 : fst (add Py.hello Py.filter_50) = Ok tt)
    by (vm_compute; reflexivity).
  split; [exact H1|]. split; [exact H2|].
  exact (no_false_negatives Py.filter_50 Py.hello _ H1 H2).
Defined.

(** C3 at [BloomFilter(50, 0.1)] and ["hello"], whose canonical bytes are
    the seven bytes of ['hello'] with its quotes. *)
Lemma get_hashes_well_shaped_witness :
  wf Py.filter_50
  /\ canonical_bytes Py.hello = Ok (bytes_of_literal "'hello'")
  /\ _get_hashes Py.hello Py.filter_50 = (Ok [180; 1; 62; 123], Py.filter_50)
  /\ exists indices,
       _get_hashes Py.hello Py.filter_50 = (Ok indices, Py.filter_50)
       /\ Z.of_nat (length indices) = 4
       /\ Forall (fun index => 0 <= index < 240) indices.
Proof.
  assert (H1 : wf Py.filter_50) by prove_wf.
  assert (H2 : canonical_bytes Py.hello = Ok (bytes_of_literal "'hello'"))
    by (vm_compute; reflexivity).
  split; [exact H1|]. split; [exact H2|].
  split; [vm_compute; reflexivity|].
  destruct (get_hashes_well_shaped Py.filter_50 Py.hello _ H1 H2)
    as (indices & Hget & Hlen & Hrange & _).
  exists indices. auto.
Defined.

(** C6 at [BloomFilter(50, 0.1)] after ["hello"] was added: ["hello"] is
    reported, ["goodbye"] is not, and neither query changes the instance. *)
Lemma might_contain_pure_membership_witness :
  let once := snd (add Py.hello Py.filter_50) in
  wf once
  /\ canonical_bytes Py.goodbye = Ok (bytes_of_literal "'goodbye'")
  /\ might_contain Py.hello once = (Ok true, once)
  /\ might_contain Py.goodbye once = (Ok false, once)
  /\ exists indices r,
       fst (_get_hashes Py.goodbye once) = Ok indices
       /\ might_contain Py.goodbye once = (Ok r, once)
       /\ (r = true <->
           Forall (fun index => bit_is_set (_bit_array once) index = true) indices).
Proof.
  intros once.
  assert (H1 : wf once) by (apply add_wf; prove_wf).
  assert (H2 : canonical_bytes Py.goodbye = Ok (bytes_of_literal "'goodbye'"))
    by (vm_compute; reflexivity).
  split; [exact H1|]. split; [exact H2|].
  split; [vm_compute; reflexivity|]. split; [vm_compute; reflexivity|].
  destruct (might_contain_pure_membership once Py.goodbye) as (_ & _ & H & _).
  exact (H _ H1 H2).
Defined.


(** C10 at [BloomFilter(50, 0.1)]: the bits ["hello"] set are still set
    after further calls, and [clear] zeroes the thirty bytes. *)
Lemma bits_only_grow_witness :
  let once := snd (add Py.hello Py.filter_50) in
  let later := after_calls [CallAdd Py.world; CallMightContain Py.goodbye] once in
  bit_is_set (_bit_array once) 180 = true
  /\ bit_is_set (_bit_array later) 180 = true
  /\ length (_bit_array later) = 30%nat
  /\ clear later = (Ok tt, Py.filter_50).
Proof.
  intros once later.
  assert (H1 : bit_is_set (_bit_array once) 180 = true) by (vm_compute; reflexivity).
  destruct (bits_only_grow once [CallAdd Py.world; CallMightContain Py.goodbye])
    as (Hlen & _ & Hset & Hclear).
  split; [exact H1|]. split; [exact (Hset 180 H1)|].
  split; [exact Hlen|].
  vm_compute. reflexivity.
Defined.

(** C2 at its failing input.  On [BloomFilter(50, 0.1)] the first
    [add("hello")] sets four new bits and the counter becomes 1; the
    second finds them all set, so [indices_set] stays [False] and the
    counter stays 1.  The third call of [test_add_duplicates] behaves the
    same: after ["hello"], ["world"], ["hello"] the counter is 2. *)
Lemma add_twice_counts_once :
  let once := snd (add Py.hello Py.filter_50) in
  let twice := snd (add Py.hello once) in
  let thrice := snd (add Py.hello (snd (add Py.world once))) in
  fst (add Py.hello Py.filter_50) = Ok tt
  /\ fst (add Py.hello once) = Ok tt
  /\ fst (__len__ once) = Ok 1
  /\ fst (__len__ twice) = Ok 1
  /\ twice = once
  /\ fst (__len__ thrice) = Ok 2.
Proof. vm_compute. repeat split; reflexivity. Qed.

(** C8 at its failing input.  [repr(Bad())] raises [RuntimeError]; the
    handler of [_get_hashes] formats the item into its message, which
    calls [repr] again, so [RuntimeError] and not [TypeError] leaves
    [add]; the instance is unchanged.  An object whose [__str__] returns
    does get the [TypeError]. *)
Lemma add_unreprable_raises_repr_error :
  add Py.bad Py.filter_50 = (Raise RuntimeError, Py.filter_50)
  /\ add (PyTuple [PyInt 1; Py.bad]) Py.filter_50
     = (Raise RuntimeError, Py.filter_50)
  /\ add (PyObject 3 (Raise RuntimeError) (Some (Ok (pystr_of_literal "Bad"))))
         Py.filter_50
     = (Raise TypeError, Py.filter_50)
  /\ add (PyObject 4 (Ok [0xD800]) None) Py.filter_50
     = (Raise TypeError, Py.filter_50).
Proof. vm_compute. repeat split; reflexivity. Qed.

(** ** Canonical bytes of the Python items *)

Lemma utf8_encode_char_below_surrogates (c : Z) :
  c < 0xD800 -> exists bs, utf8_encode_char c = Ok bs.
Proof.
  intros Hc. unfold utf8_encode_char.
  destruct (c <? 0x80); [eauto|]. destruct (c <? 0x800); [eauto|].
  destruct (Z.ltb_spec c 0x10000); [|lia].
  destruct (Z.leb_spec 0xD800 c); [lia|]. simpl. eauto.
Qed.

Lemma utf8_encode_below_surrogates (s : pystr) :
  Forall (fun c => c < 0xD800) s -> exists bs, utf8_encode s = Ok bs.
Proof.
  induction 1 as [|c s Hc _ (bs' & IH)]; [exists []; reflexivity|].
  destruct (utf8_encode_char_below_surrogates c Hc) as (bs & Hbs).
  exists (bs ++ bs'). cbn [utf8_encode]. rewrite Hbs, IH. reflexivity.
Qed.

(** Encoding a text that starts with an ASCII character. *)
Lemma utf8_encode_ascii_head (c : Z) (s : pystr) :
  (c <? 0x80) = true ->
  utf8_encode (c :: s)
  = match utf8_encode s with
    | Ok bs => Ok (byte_of_Z c :: bs)
    | Raise e => Raise e
    end.
Proof.
  intros Hc. cbn [utf8_encode]. unfold utf8_encode_char. rewrite Hc. reflexivity.
Qed.

Lemma hex_digit_small (n : Z) : n < 16 -> hex_digit n < 256.
Proof. intros Hn. unfold hex_digit. destruct (n <? 10); lia. Qed.

Lemma repr_char_small (quote c : Z) :
  quote < 256 -> c < 256 -> Forall (fun x => x < 256) (repr_char quote c).
Proof.
  intros Hq Hc. unfold repr_char.
  assert (H1 : hex_digit (c / 16) < 256)
    by (apply hex_digit_small, Z.div_lt_upper_bound; lia).
  assert (H2 : hex_digit (c mod 16) < 256)
    by (apply hex_digit_small, Z.mod_pos_bound; lia).
  repeat match goal with
         | |- context [if ?b then _ else _] => destruct b
         end;
    repeat constructor; lia.
Qed.

Lemma str_quote_cases (s : pystr) : str_quote s = 34 \/ str_quote s = 39.
Proof. unfold str_quote. destruct (_ && _); auto. Qed.

Lemma repr_str_small (s : pystr) :
  Forall (fun c => c < 256) s -> Forall (fun c => c < 256) (repr_str s).
Proof.
  intros Hs. unfold repr_str.
  assert (Hq : str_quote s < 256) by (destruct (str_quote_cases s); lia).
  revert Hq. generalize (str_quote s). intros quote Hq.
  apply Forall_app. split; [repeat constructor; assumption|].
  apply Forall_app. split; [|repeat constructor; assumption].
  induction Hs as [|c s Hc _ IH]; [constructor|].
  cbn [map concat]. apply Forall_app. split; [|exact IH].
  apply repr_char_small; assumption.
Qed.

Lemma code_points_small (s : string) : Forall (fun c => c < 256) (code_points s).
Proof.
  unfold code_points. apply Forall_map, Forall_forall. intros b _.
  apply byte_to_Z_range.
Qed.

(** The canonical bytes of a [str] exist and start with a quote, single
    ([x27]) or double ([x22]). *)
Lemma repr_bytes_str (s : string) :
  exists bs,
    canonical_bytes (PyStr s) = Ok (x27 :: bs)
    \/ canonical_bytes (PyStr s) = Ok (x22 :: bs).
Proof.
  unfold canonical_bytes. cbn [repr py_host py_repr].
  destruct (utf8_encode_below_surrogates (repr_str (code_points s))) as (bs & Hbs).
  { eapply Forall_impl; [apply repr_str_small, code_points_small|].
    intros c Hc. cbv beta in Hc. lia. }
  rewrite Hbs. unfold repr_str in Hbs. cbn [app] in Hbs.
  destruct (str_quote_cases (code_points s)) as [Hq|Hq]; rewrite Hq in Hbs;
    rewrite utf8_encode_ascii_head in Hbs by reflexivity;
    destruct (utf8_encode _) as [bs'|]; try discriminate;
    injection Hbs as <-; exists bs'; [right|left]; reflexivity.
Qed.

(** The canonical bytes of a [tuple], when it has any, start with a
    parenthesis ([x28]). *)
Lemma repr_bytes_tuple (items : list PyItem) (bs : bytes) :
  canonical_bytes (PyTuple items) = Ok bs -> exists bs', bs = x28 :: bs'.
Proof.
  unfold canonical_bytes. cbn [repr py_host py_repr].
  destruct (collect (map py_repr items)) as [parts|]; [|discriminate].
  assert (Hhead : exists tl, repr_tuple parts = 40 :: tl).
  { unfold repr_tuple. destruct parts as [|x [|y parts]]; cbn [app]; eauto. }
  destruct Hhead as (tl & ->).
  rewrite utf8_encode_ascii_head by reflexivity.
  destruct (utf8_encode tl) as [bs'|]; [|discriminate].
  intros [= <-]. exists bs'. reflexivity.
Qed.



(** ** The further properties at [BloomFilter(50, 0.1)] *)

(** X1 after an [add], an [add] that raises, a [clear] and another [add]. *)
Lemma invariant_at_any_time_witness :
  Py.construct (VInt 50) Py.tenth = Ok Py.filter_50
  /\ wf (after_ops [OpCall (CallAdd Py.hello); OpCall (CallAdd Py.bad); OpClear;
                    OpCall (CallAdd Py.world)] Py.filter_50).
Proof.
  assert (H : Py.construct (VInt 50) Py.tenth = Ok Py.filter_50)
    by (vm_compute; reflexivity).
  split; [exact H|].
  exact (invariant_at_any_time (VInt 50) Py.tenth None Py.filter_50 _ H).
Defined.

(** X3 at an object whose [__repr__] raises [RuntimeError]. *)
Lemma only_conversion_errors_witness :
  wf Py.filter_50
  /\ fst (add Py.bad Py.filter_50) = Raise RuntimeError
  /\ item_bytes Py.bad = Raise RuntimeError
  /\ snd (add Py.bad Py.filter_50) = Py.filter_50.
Proof.
  assert (H1 : wf Py.filter_50) by prove_wf.
  assert (H2 : fst (add Py.bad Py.filter_50) = Raise RuntimeError)
    by (vm_compute; reflexivity).
  split; [exact H1|]. split; [exact H2|].
  exact (proj1 (only_conversion_errors Py.filter_50 Py.bad RuntimeError H1) H2).
Defined.

(** X4: ["hello"] is reported once added, and still after ["world"]. *)
Lemma positive_answers_are_stable_witness :
  let once := snd (add Py.hello Py.filter_50) in
  let later := after_calls [CallAdd Py.world; CallLen; CallAdd Py.bad] once in
  fst (might_contain Py.hello once) = Ok true
  /\ might_contain Py.hello later = (Ok true, later).
Proof.
  intros once later.
  assert (H : fst (might_contain Py.hello once) = Ok true)
    by (vm_compute; reflexivity).
  split; [exact H|].
  exact (positive_answers_are_stable once Py.hello _ H).
Defined.

(** X5: the first [add] of ["hello"] counts, ["hello"] was not reported. *)
Lemma add_counts_unreported_items_witness :
  wf Py.filter_50
  /\ hashable Py.hello
  /\ might_contain Py.hello Py.filter_50 = (Ok false, Py.filter_50)
  /\ exists reported,
       might_contain Py.hello Py.filter_50 = (Ok reported, Py.filter_50)
       /\ fst (add Py.hello Py.filter_50) = Ok tt
       /\ _items_added_count (snd (add Py.hello Py.filter_50))
          = _items_added_count Py.filter_50 + (if reported then 0 else 1).
Proof.
  assert (H1 : wf Py.filter_50) by prove_wf.
  assert (H2 : hashable Py.hello)
    by (exists (bytes_of_literal "'hello'"); vm_compute; reflexivity).
  split; [exact H1|]. split; [exact H2|].
  split; [vm_compute; reflexivity|].
  exact (add_counts_unreported_items Py.filter_50 Py.hello H1 H2).
Defined.

(** X7: bit 180 is an index of ["hello"], bit 240 is beyond the bits. *)
Lemma set_bits_are_indices_of_items_witness :
  let later := after_calls [CallAdd Py.hello] Py.filter_50 in
  Py.construct (VInt 50) Py.tenth = Ok Py.filter_50
  /\ items_indices Py.filter_50 [Py.hello] = [180; 1; 62; 123]
  /\ (bit_is_set (_bit_array later) 180 = true
      <-> In 180 (items_indices Py.filter_50 ([] ++ [Py.hello])))
  /\ (240 <= 240 -> bit_is_set (_bit_array later) 240 = false).
Proof.
  intros later.
  assert (H : Py.construct (VInt 50) Py.tenth = Ok Py.filter_50)
    by (vm_compute; reflexivity).
  split; [exact H|]. split; [vm_compute; reflexivity|].
  assert (H0 : 0 <= 180) by lia. assert (H1 : 0 <= 240) by lia.
  split.
  - exact (proj1 (set_bits_are_indices_of_items (VInt 50) Py.tenth None Py.filter_50
                    [CallAdd Py.hello] 180 H H0)).
  - exact (proj2 (set_bits_are_indices_of_items (VInt 50) Py.tenth None Py.filter_50
                    [CallAdd Py.hello] 240 H H1)).
Defined.

(** X8: after ["hello"] and ["world"], ["goodbye"] is not reported: one of
    its indices is an index of neither. *)
Lemma reported_iff_indices_covered_witness :
  let later := after_calls [CallAdd Py.hello; CallAdd Py.world] Py.filter_50 in
  Py.construct (VInt 50) Py.tenth = Ok Py.filter_50
  /\ hashable Py.goodbye
  /\ might_contain Py.goodbye later = (Ok false, later)
  /\ exists answer,
       might_contain Py.goodbye later = (Ok answer, later)
       /\ (answer = true
           <-> incl (item_indices Py.filter_50 Py.goodbye)
                    (items_indices Py.filter_50 ([] ++ [Py.hello; Py.world]))).
Proof.
  intros later.
  assert (H1 : Py.construct (VInt 50) Py.tenth = Ok Py.filter_50)
    by (vm_compute; reflexivity).
  assert (H2 : hashable Py.goodbye)
    by (exists (bytes_of_literal "'goodbye'"); vm_compute; reflexivity).
  split; [exact H1|]. split; [exact H2|]. split; [vm_compute; reflexivity|].
  exact (reported_iff_indices_covered (VInt 50) Py.tenth None Py.filter_50
           [CallAdd Py.hello; CallAdd Py.world] Py.goodbye H1 H2).
Defined.

(** X9 at the new [BloomFilter(50, 0.1)] and ["hello"]. *)
Lemma new_filter_reports_nothing_witness :
  Py.construct (VInt 50) Py.tenth = Ok Py.filter_50
  /\ hashable Py.hello
  /\ might_contain Py.hello Py.filter_50 = (Ok false, Py.filter_50)
  /\ __contains__ Py.hello Py.filter_50 = (Ok false, Py.filter_50)
  /\ __len__ Py.filter_50 = (Ok 0, Py.filter_50)
  /\ _bit_array Py.filter_50 = repeat 0 (Z.to_nat (_num_bytes Py.filter_50)).
Proof.
  assert (H1 : Py.construct (VInt 50) Py.tenth = Ok Py.filter_50)
    by (vm_compute; reflexivity).
  assert (H2 : hashable Py.hello)
    by (exists (bytes_of_literal "'hello'"); vm_compute; reflexivity).
  split; [exact H1|]. split; [exact H2|].
  exact (new_filter_reports_nothing (VInt 50) Py.tenth None Py.filter_50 Py.hello
           H1 eq_refl H2).
Defined.

(** X10: ["hello"] then ["world"], against ["world"], ["hello"] and
    ["world"] again. *)
Lemma storage_depends_on_items_only_witness :
  let later := after_calls [CallAdd Py.hello; CallAdd Py.world] Py.filter_50 in
  let later' :=
    after_calls [CallAdd Py.world; CallLen; CallAdd Py.hello; CallAdd Py.world]
                Py.filter_50 in
  wf Py.filter_50
  /\ _bit_array later = _bit_array later'
  /\ fst (might_contain Py.goodbye later) = fst (might_contain Py.goodbye later').
Proof.
  intros later later'.
  assert (H1 : wf Py.filter_50) by prove_wf.
  assert (H2 : forall item : PyItem,
            In item (added_items [CallAdd Py.hello; CallAdd Py.world])
            <-> In item (added_items [CallAdd Py.world; CallLen; CallAdd Py.hello;
                                      CallAdd Py.world]))
    by (intros item; simpl; tauto).
  split; [exact H1|].
  destruct (storage_depends_on_items_only Py.filter_50 _ _ H1 H2) as [Ha Hq].
  split; [exact Ha | exact (Hq Py.goodbye)].
Defined.

(** X11: [clear] after two items gives [BloomFilter(50, 0.1)] back. *)
Lemma clear_restores_new_filter_witness :
  let now := after_ops [OpCall (CallAdd Py.hello); OpClear;
                        OpCall (CallAdd Py.world)] Py.filter_50 in
  Py.construct (VInt 50) Py.tenth = Ok Py.filter_50
  /\ fst (clear now) = Ok tt
  /\ Py.construct (VInt 50) Py.tenth = Ok (snd (clear now)).
Proof.
  intros now.
  assert (H : Py.construct (VInt 50) Py.tenth = Ok Py.filter_50)
    by (vm_compute; reflexivity).
  split; [exact H|].
  exact (clear_restores_new_filter (VInt 50) Py.tenth None Py.filter_50 _ H).
Defined.

(** X12: after ["hello"] twice and ["world"], [len] is 2 and eight bits
    are set. *)
Lemma len_bounded_by_set_bits_witness :
  let now := after_ops [OpCall (CallAdd Py.hello); OpCall (CallAdd Py.hello);
                        OpCall (CallAdd Py.world)] Py.filter_50 in
  Py.construct (VInt 50) Py.tenth = Ok Py.filter_50
  /\ _items_added_count now = 2
  /\ bits_in_use now = 8
  /\ 0 <= _items_added_count now
  /\ _items_added_count now <= bits_in_use now
  /\ bits_in_use now <= _num_bits now.
Proof.
  intros now.
  assert (H : Py.construct (VInt 50) Py.tenth = Ok Py.filter_50)
    by (vm_compute; reflexivity).
  split; [exact H|]. split; [vm_compute; reflexivity|].
  split; [vm_compute; reflexivity|].
  exact (len_bounded_by_set_bits (VInt 50) Py.tenth None Py.filter_50 _ H).
Defined.



(** X15 at the integer [1] and an object whose [__repr__] returns ["1"]:
    after [add(1)] the object is reported. *)
Lemma equal_repr_items_are_one_item_witness :
  let once := snd (add (PyInt 1) Py.filter_50) in
  canonical_bytes (PyInt 1) = Ok (bytes_of_literal "1")
  /\ canonical_bytes Py.one_like = Ok (bytes_of_literal "1")
  /\ py_eq (PyInt 1) Py.one_like = false
  /\ add (PyInt 1) Py.filter_50 = add Py.one_like Py.filter_50
  /\ might_contain Py.one_like once = (Ok true, once).
Proof.
  intros once.
  assert (H1 : canonical_bytes (PyInt 1) = Ok (bytes_of_literal "1"))
    by (vm_compute; reflexivity).
  assert (H2 : canonical_bytes Py.one_like = Ok (bytes_of_literal "1"))
    by (vm_compute; reflexivity).
  assert (Hwf : wf Py.filter_50) by prove_wf.
  split; [exact H1|]. split; [exact H2|]. split; [vm_compute; reflexivity|].
  destruct (equal_repr_items_are_one_item Py.filter_50 (PyInt 1) Py.one_like _ H1 H2)
    as (Hadd & _ & Hrep).
  split; [exact Hadd | exact (Hrep Hwf)].
Defined.

(** X16 at [BloomFilter(10 ** 400, 0.1)]: one bit, and after
    [add("hello")] the filter reports ["world"]. *)
Lemma sizing_fallback_gives_one_bit_witness :
  is_positive_integer (VInt (10 ^ 400))
  /\ is_probability Py.tenth
  /\ exists self,
       __init__ (floats := Py.floats_overflow) (VInt (10 ^ 400)) Py.tenth None
       = Ok self
       /\ _num_bits self = 1
       /\ _num_hashes self = 1
       /\ _num_bytes self = 1
       /\ might_contain Py.world (snd (add Py.hello self))
          = (Ok true, snd (add Py.hello self)).
Proof.
  assert (Hn : is_positive_integer (VInt (10 ^ 400)))
    by (exists (10 ^ 400); split; [left; reflexivity | lia]).
  assert (Hp : is_probability Py.tenth)
    by (eexists; repeat split; vm_compute; reflexivity).
  assert (Hh : hashable Py.hello)
    by (exists (bytes_of_literal "'hello'"); vm_compute; reflexivity).
  assert (Hw : hashable Py.world)
    by (exists (bytes_of_literal "'world'"); vm_compute; reflexivity).
  assert (Hm : forall m,
            ceil_m_float (FloatMath := Py.floats_overflow)
              (int_value (VInt (10 ^ 400))) Py.tenth <> FloatInt m)
    by (intros m; simpl; discriminate).
  split; [exact Hn|]. split; [exact Hp|].
  destruct (sizing_fallback_gives_one_bit (floats := Py.floats_overflow)
              (VInt (10 ^ 400)) Py.tenth Py.hello Py.world Hn Hp Hm)
    as (self & Hinit & H1 & H2 & H3 & Hrep).
  exists self. split; [exact Hinit|]. split; [exact H1|]. split; [exact H2|].
  split; [exact H3 | exact (Hrep Hh Hw)].
Defined.
